(** * Task Manager CLI: a shallow embedding of [lib/models.py] and
    [lib/cli_tool.py], and the properties of its specification.

    Python objects are mutable and handled by reference, so the embedding
    keeps an explicit object store: one heap of [Task] objects, one heap of
    [User] objects, the module-level dictionary [users] of [cli_tool.py],
    and the text written by [print].  A reference is the index of the
    object in its heap; objects are never freed.  A Python [str] is a Rocq
    [string] holding its UTF-8 bytes (the encoding is injective, so [==] on
    [str] is equality of the byte strings). *)

From Stdlib Require Import String Ascii Decimal DecimalString Lia.
From stdpp Require Import base option list strings.

(** ** Python runtime: strings, dictionaries, the object store *)

Definition newline : string := String (ascii_of_nat 10) EmptyString.

(** [f"{n}"] for a non-negative [int]: decimal digits, no leading zero. *)
Definition str_of_int (n : nat) : string :=
  NilZero.string_of_uint (Nat.to_uint n).

(** A reference to an object: its index in the heap of its class. *)
Abbreviation ref := nat (only parsing).

(** A [dict] with [str] keys: Python keeps the entries in insertion order,
    which [users.items()] exposes, so it is an association list.  [d.get(k)]
    is [dict_get]; [d[k] = v] is [dict_set]: the value of an existing key is
    replaced in place, a new key goes to the end. *)
Section Dict.
Context {V : Type}.

Fixpoint dict_get (k : string) (d : list (string * V)) : option V :=
  match d with
  | [] => None
  | (k', v) :: d' => if String.eqb k' k then Some v else dict_get k d'
  end.

Fixpoint dict_set (k : string) (v : V) (d : list (string * V))
  : list (string * V) :=
  match d with
  | [] => [(k, v)]
  | (k', v') :: d' =>
      if String.eqb k' k then (k', v) :: d' else (k', v') :: dict_set k v d'
  end.

Definition dict_keys (d : list (string * V)) : list string := d.*1.
Definition dict_values (d : list (string * V)) : list V := d.*2.
End Dict.

(** Instance attributes of the two classes of [models.py]. *)
Module Task.
Record t := mk { title : string; completed : bool }.
End Task.

Module User.
(** [tasks] is the Python list of the user's [Task] objects, held by
    reference. *)
Record t := mk { name : string; tasks : list ref }.
End User.

Record World := mkWorld {
  task_objs : list Task.t;          (* every Task object ever constructed *)
  user_objs : list User.t;          (* every User object ever constructed *)
  users     : list (string * ref);  (* cli_tool.users *)
  stdout    : list string           (* one entry per call of print *)
}.

(** The process starts with no object, [users = {}] and nothing printed. *)
Definition empty_world : World := mkWorld [] [] [] [].

(** Computations read and update the world.  [None] is a dangling
    reference, which Python rules out; [heap_ok] below is the matching
    condition on worlds. *)
Definition M (A : Type) : Type := World -> option (A * World).

Definition ret {A} (a : A) : M A := fun w => Some (a, w).

Definition bind {A B} (m : M A) (k : A -> M B) : M B :=
  fun w => match m w with
           | Some (a, w') => k a w'
           | None => None
           end.

Declare Scope py_scope.
Delimit Scope py_scope with py.
Notation "x <- m ; k" := (bind m (fun x => k))
  (at level 20, m at level 100, k at level 200, only parsing) : py_scope.
Notation "m ;; k" := (bind m (fun _ => k))
  (at level 100, k at level 200, only parsing, right associativity)
  : py_scope.
Open Scope py_scope.

Definition print (s : string) : M unit :=
  fun w => Some (tt, mkWorld (task_objs w) (user_objs w) (users w)
                             (stdout w ++ [s])).

Definition task_new (t : Task.t) : M ref :=
  fun w => Some (length (task_objs w),
                 mkWorld (task_objs w ++ [t]) (user_objs w) (users w)
                         (stdout w)).

Definition task_get (r : ref) : M Task.t :=
  fun w => match task_objs w !! r with
           | Some t => Some (t, w)
           | None => None
           end.

Definition task_set (r : ref) (t : Task.t) : M unit :=
  fun w => match task_objs w !! r with
           | Some _ => Some (tt, mkWorld (<[r := t]> (task_objs w))
                                         (user_objs w) (users w) (stdout w))
           | None => None
           end.

Definition user_new (u : User.t) : M ref :=
  fun w => Some (length (user_objs w),
                 mkWorld (task_objs w) (user_objs w ++ [u]) (users w)
                         (stdout w)).

Definition user_get (r : ref) : M User.t :=
  fun w => match user_objs w !! r with
           | Some u => Some (u, w)
           | None => None
           end.

Definition user_set (r : ref) (u : User.t) : M unit :=
  fun w => match user_objs w !! r with
           | Some _ => Some (tt, mkWorld (task_objs w)
                                         (<[r := u]> (user_objs w))
                                         (users w) (stdout w))
           | None => None
           end.

Definition users_get (k : string) : M (option ref) :=
  fun w => Some (dict_get k (users w), w).

Definition users_set (k : string) (r : ref) : M unit :=
  fun w => Some (tt, mkWorld (task_objs w) (user_objs w)
                             (dict_set k r (users w)) (stdout w)).

Definition users_items : M (list (string * ref)) :=
  fun w => Some (users w, w).

(** ** models.py *)

(** [Task.__init__] *)
Definition Task_init (title : string) : M ref :=
  task_new (Task.mk title false).

(** [Task.complete] *)
Definition Task_complete (self : ref) : M unit :=
  t <- task_get self;
  task_set self (Task.mk (Task.title t) true);;
  t <- task_get self;
  print ("✅ Task '" +:+ Task.title t +:+ "' completed.").

(** [Task.__str__] *)
Definition Task_str (self : ref) : M string :=
  t <- task_get self;
  let status := if Task.completed t then "✅" else "⭕" in
  ret (status +:+ " " +:+ Task.title t).

(** [User.__init__] *)
Definition User_init (name : string) : M ref :=
  user_new (User.mk name []).

(** [User.add_task] *)
Definition User_add_task (self task : ref) : M unit :=
  u <- user_get self;
  user_set self (User.mk (User.name u) (User.tasks u ++ [task]));;
  t <- task_get task;
  u <- user_get self;
  print ("📌 Task '" +:+ Task.title t +:+ "' added to " +:+ User.name u
         +:+ ".").

(** The [for task in self.tasks] loop of [User.get_task_by_title]. *)
Fixpoint get_task_by_title_loop (title : string) (ts : list ref)
  : M (option ref) :=
  match ts with
  | [] => ret None
  | task :: rest =>
      t <- task_get task;
      if String.eqb (Task.title t) title then ret (Some task)
      else get_task_by_title_loop title rest
  end.

(** [User.get_task_by_title] *)
Definition User_get_task_by_title (self : ref) (title : string)
  : M (option ref) :=
  u <- user_get self;
  get_task_by_title_loop title (User.tasks u).

(** The [for i, task in enumerate(self.tasks, 1)] loop of
    [User.list_tasks], started at [i]. *)
Fixpoint list_tasks_loop (i : nat) (ts : list ref) : M unit :=
  match ts with
  | [] => ret tt
  | task :: rest =>
      s <- Task_str task;
      print ("  " +:+ str_of_int i +:+ ". " +:+ s);;
      list_tasks_loop (S i) rest
  end.

(** [User.list_tasks] *)
Definition User_list_tasks (self : ref) : M unit :=
  u <- user_get self;
  match User.tasks u with
  | [] => print (User.name u +:+ " has no tasks.")
  | _ :: _ =>
      print (newline +:+ User.name u +:+ "'s tasks:");;
      list_tasks_loop 1 (User.tasks u)
  end.

(** [User.__str__] *)
Definition User_str (self : ref) : M string :=
  u <- user_get self;
  ret ("User: " +:+ User.name u +:+ " ("
       +:+ str_of_int (length (User.tasks u)) +:+ " tasks)").

(** ** cli_tool.py *)

(** The [argparse] namespace handed to a command: [args.user] and
    [args.title].  A command that takes fewer arguments does not read the
    others. *)
Module Args.
Record t := mk { user : string; title : string }.
End Args.

Definition add_task (args : Args.t) : M unit :=
  user <- users_get (Args.user args);
  user <- match user with
          | Some user => ret user
          | None =>
              user <- User_init (Args.user args);
              users_set (Args.user args) user;;
              ret user
          end;
  task <- Task_init (Args.title args);
  User_add_task user task.

Definition complete_task (args : Args.t) : M unit :=
  user <- users_get (Args.user args);
  match user with
  | None => print ("❌ User '" +:+ Args.user args +:+ "' not found.")
  | Some user =>
      task <- User_get_task_by_title user (Args.title args);
      match task with
      | None =>
          print ("❌ Task '" +:+ Args.title args +:+ "' not found for "
                 +:+ Args.user args +:+ ".")
      | Some task =>
          t <- task_get task;
          if Task.completed t
          then print ("ℹ️  Task '" +:+ Args.title args
                      +:+ "' is already completed.")
          else Task_complete task
      end
  end.

Definition list_tasks (args : Args.t) : M unit :=
  user <- users_get (Args.user args);
  match user with
  | None => print ("❌ User '" +:+ Args.user args +:+ "' not found.")
  | Some user => User_list_tasks user
  end.

(** The [for username, user in users.items()] loop of [list_users]. *)
Fixpoint list_users_loop (items : list (string * ref)) : M unit :=
  match items with
  | [] => ret tt
  | (username, user) :: rest =>
      s <- User_str user;
      print ("  • " +:+ s);;
      list_users_loop rest
  end.

Definition list_users (args : Args.t) : M unit :=
  items <- users_items;
  match items with
  | [] => print "No users found."
  | _ :: _ =>
      print (newline +:+ "All users:");;
      list_users_loop items
  end.

(** The four sub-commands that [main] registers with [set_defaults(func=...)],
    and the call [args.func(args)]. *)
Inductive Func := f_add_task | f_complete_task | f_list_tasks | f_list_users.

Definition call (f : Func) (args : Args.t) : M unit :=
  match f with
  | f_add_task => add_task args
  | f_complete_task => complete_task args
  | f_list_tasks => list_tasks args
  | f_list_users => list_users args
  end.

(** A sequence of commands run by one process, as a test harness does. *)
Fixpoint run (cmds : list (Func * Args.t)) : M unit :=
  match cmds with
  | [] => ret tt
  | (f, args) :: rest => call f args;; run rest
  end.

(** The world a computation ends in. *)
Definition exec {A} (m : M A) (w : World) : option World :=
  match m w with
  | Some (_, w') => Some w'
  | None => None
  end.

(** ** Well-formed worlds *)

(** [emit ls w]: the world [w] after [ls] was printed, nothing else changed. *)
Definition emit (ls : list string) (w : World) : World :=
  mkWorld (task_objs w) (user_objs w) (users w) (stdout w ++ ls).

(** Every reference held by the registry or by a [User] points to an object:
    what Python guarantees of any reference. *)
Definition valid_task (w : World) (r : ref) : Prop := r < length (task_objs w).
Definition valid_user (w : World) (r : ref) : Prop := r < length (user_objs w).

Definition heap_ok (w : World) : Prop :=
  Forall (fun kv => valid_user w kv.2) (users w) /\
  Forall (fun u => Forall (valid_task w) (User.tasks u)) (user_objs w).

(** Every registry entry is stored under the name of its [User]. *)
Definition names_ok (w : World) : Prop :=
  Forall (fun kv => User.name <$> user_objs w !! kv.2 = Some kv.1) (users w).

(** The title of the task behind a reference. *)
Definition title_at (w : World) (r : ref) : option string :=
  Task.title <$> task_objs w !! r.

#[global] Instance valid_task_dec w r : Decision (valid_task w r).
Proof. unfold valid_task. apply _. Defined.
#[global] Instance valid_user_dec w r : Decision (valid_user w r).
Proof. unfold valid_user. apply _. Defined.
#[global] Instance heap_ok_dec w : Decision (heap_ok w).
Proof. unfold heap_ok. apply _. Defined.
#[global] Instance names_ok_dec w : Decision (names_ok w).
Proof. unfold names_ok. apply _. Defined.

(** ** What the spec calls things *)

(** The status glyph of a rendered task. *)
Definition glyph (t : Task.t) : string :=
  if Task.completed t then "✅" else "⭕".

(** [res] is the first task of [ts] titled [title], or [None] when [ts] has
    no such task. *)
Definition first_match (w : World) (title : string) (ts : list ref)
    (res : option ref) : Prop :=
  match res with
  | Some r =>
      exists pre post, ts = pre ++ r :: post /\ title_at w r = Some title /\
        Forall (fun r' => title_at w r' <> Some title) pre
  | None => Forall (fun r => title_at w r <> Some title) ts
  end.

(** The line that [User.list_tasks] prints for the task [t] at index [i]. *)
Definition task_line (i : nat) (t : Task.t) : string :=
  "  " +:+ str_of_int i +:+ ". " +:+ glyph t +:+ " " +:+ Task.title t.

(** The messages of the commands. *)
Definition added_msg (title user : string) : string :=
  "📌 Task '" +:+ title +:+ "' added to " +:+ user +:+ ".".
Definition user_missing_msg (user : string) : string :=
  "❌ User '" +:+ user +:+ "' not found.".
Definition task_missing_msg (title user : string) : string :=
  "❌ Task '" +:+ title +:+ "' not found for " +:+ user +:+ ".".
Definition already_msg (title : string) : string :=
  "ℹ️  Task '" +:+ title +:+ "' is already completed.".
Definition completed_msg (title : string) : string :=
  "✅ Task '" +:+ title +:+ "' completed.".

(** The world after [task.completed = True] on the task behind [r]. *)
Definition mark_completed (r : ref) (w : World) : World :=
  match task_objs w !! r with
  | Some t => mkWorld (<[r := Task.mk (Task.title t) true]> (task_objs w))
                      (user_objs w) (users w) (stdout w)
  | None => w
  end.

(** The line that [list_users] prints for the user [U]. *)
Definition user_line (U : User.t) : string :=
  "  • User: " +:+ User.name U +:+ " ("
  +:+ str_of_int (length (User.tasks U)) +:+ " tasks)".

(** Titles given to the add-task commands of a run, in order. *)
Definition added_titles (cmds : list (Func * Args.t)) : list string :=
  flat_map (fun c => match c.1 with
                     | f_add_task => [Args.title c.2]
                     | _ => []
                     end) cmds.

(** Every operation of the system, as one type. *)
Inductive Op :=
  | op_Task_init (title : string)
  | op_Task_complete (self : ref)
  | op_Task_str (self : ref)
  | op_User_init (name : string)
  | op_User_add_task (self task : ref)
  | op_User_get_task_by_title (self : ref) (title : string)
  | op_User_list_tasks (self : ref)
  | op_User_str (self : ref)
  | op_run (cmds : list (Func * Args.t)).

Definition run_op (o : Op) : World -> option World :=
  match o with
  | op_Task_init title => exec (Task_init title)
  | op_Task_complete self => exec (Task_complete self)
  | op_Task_str self => exec (Task_str self)
  | op_User_init name => exec (User_init name)
  | op_User_add_task self task => exec (User_add_task self task)
  | op_User_get_task_by_title self title =>
      exec (User_get_task_by_title self title)
  | op_User_list_tasks self => exec (User_list_tasks self)
  | op_User_str self => exec (User_str self)
  | op_run cmds => exec (run cmds)
  end.

(** The objects an operation is called on exist. *)
Definition op_ok (w : World) (o : Op) : Prop :=
  match o with
  | op_Task_complete self | op_Task_str self => valid_task w self
  | op_User_add_task self task => valid_user w self /\ valid_task w task
  | op_User_get_task_by_title self _ | op_User_list_tasks self
  | op_User_str self => valid_user w self
  | op_Task_init _ | op_User_init _ | op_run _ => True
  end.

(** Usernames named by the add-task commands of a run, in order. *)
Definition adders (cmds : list (Func * Args.t)) : list string :=
  flat_map (fun c => match c.1 with
                     | f_add_task => [Args.user c.2]
                     | _ => []
                     end) cmds.

(** The names of [l], each one at the place of its first occurrence. *)
Definition first_added (l : list string) : list string :=
  fold_left (fun acc k => if decide (k ∈ acc) then acc else acc ++ [k]) l [].

(** How many times [k] occurs in [l]. *)
Definition count (k : string) (l : list string) : nat :=
  length (filter (fun x => x = k) l).

(** What the world reached by [cmds] from the empty one records: the
    registry lists the users in the order of their first add-task, each
    entry leads to a [User] object of its own, named by the key, holding as
    many tasks as add-task commands named the user. *)
Definition tally_ok (cmds : list (Func * Args.t)) (w : World) : Prop :=
  heap_ok w /\
  dict_keys (users w) = first_added (adders cmds) /\
  NoDup (dict_values (users w)) /\
  Forall (fun kv => exists U,
            user_objs w !! kv.2 = Some U /\ User.name U = kv.1 /\
            length (User.tasks U) = count kv.1 (adders cmds))
         (users w).

(** Every task reference held by some [User] object, user by user. *)
Definition owned_tasks (w : World) : list ref :=
  concat (User.tasks <$> user_objs w).

(** Ownership: the registry names every [User] object once, in the order of
    creation, and the task lists together hold every [Task] object once. *)
Definition ownership_ok (w : World) : Prop :=
  dict_values (users w) = seq 0 (length (user_objs w)) /\
  owned_tasks w ≡ₚ seq 0 (length (task_objs w)).

(** A sample world: Alice owns "Write unit tests" (open) and "Review code"
    (done), Bob owns "Deploy" (open); nothing has been printed yet. *)
Definition demo_world : World :=
  mkWorld [Task.mk "Write unit tests" false; Task.mk "Review code" true;
           Task.mk "Deploy" false]
          [User.mk "Alice" [0; 1]; User.mk "Bob" [2]]
          [("Alice", 0); ("Bob", 1)]
          [].

(** A run in which Bob is added before Alice. *)
Definition demo_run : list (Func * Args.t) :=
  [ (f_add_task, Args.mk "Bob" "Deploy");
    (f_add_task, Args.mk "Alice" "Write unit tests");
    (f_complete_task, Args.mk "Bob" "Deploy");
    (f_add_task, Args.mk "Bob" "Monitor") ].

(** The world [demo_run] ends in. *)
Definition demo_run_world : World :=
  mkWorld [Task.mk "Deploy" true; Task.mk "Write unit tests" false;
           Task.mk "Monitor" false]
          [User.mk "Bob" [0; 2]; User.mk "Alice" [1]]
          [("Bob", 0); ("Alice", 1)]
          ["📌 Task 'Deploy' added to Bob.";
           "📌 Task 'Write unit tests' added to Alice.";
           "✅ Task 'Deploy' completed.";
           "📌 Task 'Monitor' added to Bob."].

(** ** The runtime primitives *)

Lemma emit_nil w : emit [] w = w.
Proof. destruct w. unfold emit. simpl. by rewrite app_nil_r. Qed.

Lemma emit_emit ls1 ls2 w : emit ls2 (emit ls1 w) = emit (ls1 ++ ls2) w.
Proof. unfold emit. simpl. by rewrite app_assoc. Qed.

Lemma print_eq s w : print s w = Some (tt, emit [s] w).
Proof. reflexivity. Qed.

Lemma bind_Some {A B} (m : M A) (k : A -> M B) w a w' :
  m w = Some (a, w') -> bind m k w = k a w'.
Proof. unfold bind. by intros ->. Qed.

Lemma task_get_eq w r t : task_objs w !! r = Some t -> task_get r w = Some (t, w).
Proof. unfold task_get. by intros ->. Qed.

Lemma user_get_eq w r u : user_objs w !! r = Some u -> user_get r w = Some (u, w).
Proof. unfold user_get. by intros ->. Qed.

Lemma valid_task_lookup w r : valid_task w r -> exists t, task_objs w !! r = Some t.
Proof. intros H. by apply lookup_lt_is_Some_2. Qed.

Lemma valid_user_lookup w r : valid_user w r -> exists u, user_objs w !! r = Some u.
Proof. intros H. by apply lookup_lt_is_Some_2. Qed.

(** ** models.py, function by function *)

Lemma Task_init_eq title w :
  Task_init title w =
  Some (length (task_objs w),
        mkWorld (task_objs w ++ [Task.mk title false]) (user_objs w)
                (users w) (stdout w)).
Proof. reflexivity. Qed.

Lemma Task_complete_eq w self t :
  task_objs w !! self = Some t ->
  Task_complete self w =
  Some (tt, emit ["✅ Task '" +:+ Task.title t +:+ "' completed."]
              (mkWorld (<[self := Task.mk (Task.title t) true]> (task_objs w))
                       (user_objs w) (users w) (stdout w))).
Proof.
  intros Ht. unfold Task_complete.
  rewrite (bind_Some _ _ _ _ _ (task_get_eq _ _ _ Ht)).
  unfold bind at 1. unfold task_set. rewrite Ht.
  unfold bind, task_get. simpl.
  rewrite list_lookup_insert_eq by (by eapply lookup_lt_Some).
  reflexivity.
Qed.

Lemma Task_str_eq w self t :
  task_objs w !! self = Some t ->
  Task_str self w = Some (glyph t +:+ " " +:+ Task.title t, w).
Proof.
  intros Ht. unfold Task_str.
  by rewrite (bind_Some _ _ _ _ _ (task_get_eq _ _ _ Ht)).
Qed.

Lemma User_add_task_eq w self task u t :
  user_objs w !! self = Some u ->
  task_objs w !! task = Some t ->
  User_add_task self task w =
  Some (tt, emit ["📌 Task '" +:+ Task.title t +:+ "' added to "
                  +:+ User.name u +:+ "."]
              (mkWorld (task_objs w)
                       (<[self := User.mk (User.name u)
                                          (User.tasks u ++ [task])]>
                          (user_objs w))
                       (users w) (stdout w))).
Proof.
  intros Hu Ht. unfold User_add_task.
  rewrite (bind_Some _ _ _ _ _ (user_get_eq _ _ _ Hu)).
  unfold bind at 1. unfold user_set. rewrite Hu.
  unfold bind, task_get, user_get. simpl. rewrite Ht. simpl.
  rewrite list_lookup_insert_eq by (by eapply lookup_lt_Some).
  reflexivity.
Qed.

Lemma get_task_by_title_loop_spec w title ts :
  Forall (valid_task w) ts ->
  exists res, get_task_by_title_loop title ts w = Some (res, w) /\
              first_match w title ts res.
Proof.
  induction ts as [|task rest IH]; intros Hv.
  - exists None. split; [reflexivity | constructor].
  - apply Forall_cons in Hv as [Hr Hrest].
    destruct (valid_task_lookup _ _ Hr) as [t Ht].
    simpl. rewrite (bind_Some _ _ _ _ _ (task_get_eq _ _ _ Ht)).
    destruct (String.eqb_spec (Task.title t) title) as [He|Hne].
    + exists (Some task). split; [reflexivity|].
      exists [], rest. repeat split; [|constructor].
      unfold title_at. by rewrite Ht, <- He.
    + destruct (IH Hrest) as (res & Hres & Hfm). exists res. split; [done|].
      assert (Hhd : title_at w task <> Some title).
      { unfold title_at. rewrite Ht. simpl. congruence. }
      destruct res as [r|]; simpl in *.
      * destruct Hfm as (pre & post & -> & Htr & Hpre).
        exists (task :: pre), post. repeat split; [done|by constructor].
      * by constructor.
Qed.

Lemma User_get_task_by_title_spec w self u title :
  user_objs w !! self = Some u ->
  Forall (valid_task w) (User.tasks u) ->
  exists res, User_get_task_by_title self title w = Some (res, w) /\
              first_match w title (User.tasks u) res.
Proof.
  intros Hu Hv. unfold User_get_task_by_title.
  rewrite (bind_Some _ _ _ _ _ (user_get_eq _ _ _ Hu)).
  by apply get_task_by_title_loop_spec.
Qed.

Lemma list_tasks_loop_spec ts : forall w i,
  Forall (valid_task w) ts ->
  exists body, list_tasks_loop i ts w = Some (tt, emit body w) /\
    length body = length ts /\
    forall k r t, ts !! k = Some r -> task_objs w !! r = Some t ->
                  body !! k = Some (task_line (i + k) t).
Proof.
  induction ts as [|task rest IH]; intros w i Hv.
  - exists []. rewrite emit_nil. repeat split. intros k r t Hk. done.
  - apply Forall_cons in Hv as [Hr Hrest].
    destruct (valid_task_lookup _ _ Hr) as [t Ht].
    destruct (IH (emit [task_line i t] w) (S i) Hrest)
      as (body & Hrun & Hlen & Hbody).
    exists (task_line i t :: body). split; [|split].
    + simpl. rewrite (bind_Some _ _ _ _ _ (Task_str_eq _ _ _ Ht)).
      unfold bind at 1. rewrite print_eq. fold (task_line i t).
      rewrite Hrun. by rewrite emit_emit.
    + simpl. by rewrite Hlen.
    + intros [|k] r t' Hk Ht'; simpl in *.
      * rewrite Nat.add_0_r. congruence.
      * rewrite <- Nat.add_succ_comm. by eapply Hbody.
Qed.

(** ** Dictionaries *)

Section DictFacts.
Context {V : Type}.
Implicit Types (d : list (string * V)) (k : string) (v : V).

Lemma dict_get_None k d : dict_get k d = None <-> k ∉ dict_keys d.
Proof.
  unfold dict_keys. induction d as [|[k' v'] d IH]; simpl.
  - split; [intros _; apply not_elem_of_nil | done].
  - rewrite not_elem_of_cons.
    destruct (String.eqb_spec k' k) as [->|Hne]; [split; [done|tauto]|].
    rewrite IH. split; [intros ?; split; [by intros -> | done] | tauto].
Qed.

Lemma dict_get_Some_elem k v d : dict_get k d = Some v -> (k, v) ∈ d.
Proof.
  induction d as [|[k' v'] d IH]; simpl; [done|].
  destruct (String.eqb_spec k' k) as [->|Hne].
  - intros [= ->]. apply list_elem_of_here.
  - intros H. apply list_elem_of_further. auto.
Qed.

Lemma dict_get_app k d d' :
  dict_get k (d ++ d') =
  match dict_get k d with Some v => Some v | None => dict_get k d' end.
Proof.
  induction d as [|[k' v'] d IH]; simpl; [done|].
  by destruct (String.eqb k' k).
Qed.

Lemma dict_set_fresh k v d :
  dict_get k d = None -> dict_set k v d = d ++ [(k, v)].
Proof.
  induction d as [|[k' v'] d IH]; simpl; [done|].
  destruct (String.eqb k' k); [done|]. intros H. by rewrite IH.
Qed.

Lemma dict_get_snoc_eq k v d :
  dict_get k d = None -> dict_get k (d ++ [(k, v)]) = Some v.
Proof.
  intros H. rewrite dict_get_app, H. simpl. by rewrite String.eqb_refl.
Qed.

Lemma dict_keys_snoc_NoDup k v d :
  dict_get k d = None -> NoDup (dict_keys d) ->
  NoDup (dict_keys (d ++ [(k, v)])).
Proof.
  intros Hk Hd. unfold dict_keys in *. rewrite fmap_app. simpl.
  apply NoDup_app. split; [done|]. split.
  - intros x Hx Hin. apply list_elem_of_singleton in Hin as ->.
    by apply dict_get_None in Hk.
  - apply NoDup_singleton.
Qed.
End DictFacts.

(** ** cli_tool.py, command by command *)

Lemma add_task_existing w args u U :
  dict_get (Args.user args) (users w) = Some u ->
  user_objs w !! u = Some U ->
  add_task args w =
  Some (tt, emit [added_msg (Args.title args) (User.name U)]
              (mkWorld (task_objs w ++ [Task.mk (Args.title args) false])
                       (<[u := User.mk (User.name U)
                                       (User.tasks U ++ [length (task_objs w)])]>
                          (user_objs w))
                       (users w) (stdout w))).
Proof.
  intros Hk HU. unfold add_task, users_get, bind at 1 2. rewrite Hk.
  unfold ret, bind at 1. rewrite Task_init_eq.
  rewrite (User_add_task_eq _ _ _ U (Task.mk (Args.title args) false));
    [reflexivity | exact HU | simpl; by apply list_lookup_middle].
Qed.

Lemma add_task_new w args :
  dict_get (Args.user args) (users w) = None ->
  add_task args w =
  Some (tt, emit [added_msg (Args.title args) (Args.user args)]
              (mkWorld (task_objs w ++ [Task.mk (Args.title args) false])
                       (user_objs w
                          ++ [User.mk (Args.user args) [length (task_objs w)]])
                       (users w ++ [(Args.user args, length (user_objs w))])
                       (stdout w))).
Proof.
  intros Hk. unfold add_task, users_get, bind at 1 2. rewrite Hk.
  unfold User_init, user_new, users_set, Task_init, task_new, ret, bind.
  simpl.
  rewrite (User_add_task_eq _ _ _ (User.mk (Args.user args) [])
             (Task.mk (Args.title args) false));
    [ | simpl; by apply list_lookup_middle ..].
  simpl. rewrite dict_set_fresh by done.
  replace (length (user_objs w)) with (length (user_objs w) + 0) at 1 by lia.
  by rewrite insert_app_r.
Qed.

Lemma heap_ok_user w k u :
  heap_ok w -> dict_get k (users w) = Some u ->
  exists U, user_objs w !! u = Some U /\ Forall (valid_task w) (User.tasks U).
Proof.
  intros [Hus Hts] Hk. apply dict_get_Some_elem in Hk.
  rewrite Forall_forall in Hus. specialize (Hus _ Hk). simpl in Hus.
  destruct (valid_user_lookup _ _ Hus) as [U HU]. exists U. split; [done|].
  rewrite Forall_forall in Hts. apply Hts. by eapply list_elem_of_lookup_2.
Qed.

Lemma complete_task_no_user w args :
  dict_get (Args.user args) (users w) = None ->
  complete_task args w = Some (tt, emit [user_missing_msg (Args.user args)] w).
Proof.
  intros Hk. unfold complete_task, users_get, bind. by rewrite Hk.
Qed.

Lemma complete_task_user w args u U :
  dict_get (Args.user args) (users w) = Some u ->
  user_objs w !! u = Some U ->
  Forall (valid_task w) (User.tasks U) ->
  exists res, first_match w (Args.title args) (User.tasks U) res /\
    match res with
    | None =>
        complete_task args w =
        Some (tt, emit [task_missing_msg (Args.title args) (Args.user args)] w)
    | Some r =>
        exists t, task_objs w !! r = Some t /\
          Task.title t = Args.title args /\
          complete_task args w =
          Some (tt, if Task.completed t
                    then emit [already_msg (Args.title args)] w
                    else emit [completed_msg (Args.title args)]
                              (mark_completed r w))
    end.
Proof.
  intros Hk HU Hv.
  destruct (User_get_task_by_title_spec w u U (Args.title args) HU Hv)
    as (res & Hget & Hfm).
  exists res. split; [done|].
  assert (Hc : complete_task args w =
               match res with
               | None => print (task_missing_msg (Args.title args)
                                                 (Args.user args)) w
               | Some task =>
                   bind (task_get task)
                     (fun t => if Task.completed t
                               then print (already_msg (Args.title args))
                               else Task_complete task) w
               end).
  { unfold complete_task, users_get, bind at 1. rewrite Hk.
    rewrite (bind_Some _ _ _ _ _ Hget). by destruct res. }
  destruct res as [r|]; [|done].
  destruct Hfm as (pre & post & _ & Htitle & _). rewrite Hc.
  unfold title_at in Htitle.
  destruct (task_objs w !! r) as [t|] eqn:Ht; [|done].
  injection Htitle as Htitle. exists t. repeat split; [done|].
  rewrite (bind_Some _ _ _ _ _ (task_get_eq _ _ _ Ht)).
  destruct (Task.completed t); [done|].
  rewrite (Task_complete_eq _ _ _ Ht). unfold mark_completed.
  by rewrite Ht, Htitle.
Qed.

Lemma list_tasks_no_user w args :
  dict_get (Args.user args) (users w) = None ->
  list_tasks args w = Some (tt, emit [user_missing_msg (Args.user args)] w).
Proof.
  intros Hk. unfold list_tasks, users_get, bind. by rewrite Hk.
Qed.

Lemma User_list_tasks_spec w self U :
  user_objs w !! self = Some U ->
  Forall (valid_task w) (User.tasks U) ->
  exists lines, User_list_tasks self w = Some (tt, emit lines w) /\
    match User.tasks U with
    | [] => lines = [User.name U +:+ " has no tasks."]
    | _ :: _ =>
        exists body,
          lines = (newline +:+ User.name U +:+ "'s tasks:") :: body /\
          length body = length (User.tasks U) /\
          forall i r t, User.tasks U !! i = Some r ->
                        task_objs w !! r = Some t ->
                        body !! i = Some (task_line (S i) t)
    end.
Proof.
  intros HU Hv. unfold User_list_tasks.
  rewrite (bind_Some _ _ _ _ _ (user_get_eq _ _ _ HU)).
  destruct (User.tasks U) as [|r0 rest] eqn:Ets.
  - eexists. split; [apply print_eq | done].
  - rewrite <- Ets in *.
    destruct (list_tasks_loop_spec (User.tasks U)
                (emit [newline +:+ User.name U +:+ "'s tasks:"] w) 1 Hv)
      as (body & Hrun & Hlen & Hbody).
    exists ((newline +:+ User.name U +:+ "'s tasks:") :: body). split.
    + unfold bind. rewrite print_eq, Hrun. by rewrite emit_emit.
    + rewrite Ets. rewrite <- Ets. exists body. repeat split; [done|].
      intros i r t Hi Ht. by apply (Hbody i r t).
Qed.

Lemma list_tasks_user w args u :
  dict_get (Args.user args) (users w) = Some u ->
  list_tasks args w = User_list_tasks u w.
Proof.
  intros Hk. unfold list_tasks, users_get, bind. by rewrite Hk.
Qed.

Lemma list_users_loop_spec items : forall w,
  Forall (fun kv => valid_user w kv.2) items ->
  exists body, list_users_loop items w = Some (tt, emit body w) /\
    length body = length items /\
    forall i k u U, items !! i = Some (k, u) -> user_objs w !! u = Some U ->
                    body !! i = Some (user_line U).
Proof.
  induction items as [|[k u] rest IH]; intros w Hv.
  - exists []. rewrite emit_nil. repeat split. by intros [|i].
  - apply Forall_cons in Hv as [Hu Hrest]. simpl in Hu.
    destruct (valid_user_lookup _ _ Hu) as [U HU].
    destruct (IH (emit [user_line U] w) Hrest) as (body & Hrun & Hlen & Hbody).
    exists (user_line U :: body). split; [|split].
    + simpl. unfold User_str.
      rewrite (bind_Some _ _ _ _ _
                 (bind_Some _ _ _ _ _ (user_get_eq _ _ _ HU))).
      unfold bind. rewrite print_eq.
      rewrite emit_emit in Hrun. exact Hrun.
    + simpl. by rewrite Hlen.
    + intros [|i] k' u' U' Hi HU'; simpl in *.
      * congruence.
      * by eapply Hbody.
Qed.

Lemma list_users_empty w args :
  users w = [] -> list_users args w = Some (tt, emit ["No users found."] w).
Proof. intros H. unfold list_users, users_items, bind. by rewrite H. Qed.

Lemma list_users_spec w args :
  heap_ok w -> users w <> [] ->
  exists body,
    list_users args w =
    Some (tt, emit ((newline +:+ "All users:") :: body) w) /\
    length body = length (users w) /\
    forall i k u U, users w !! i = Some (k, u) -> user_objs w !! u = Some U ->
                    body !! i = Some (user_line U).
Proof.
  intros [Hus _] Hne.
  destruct (list_users_loop_spec (users w)
              (emit [newline +:+ "All users:"] w) Hus)
    as (body & Hrun & Hlen & Hbody).
  exists body. split; [|done].
  unfold list_users, users_items, bind.
  destruct (users w) as [|kv rest] eqn:E; [done|].
  rewrite print_eq, Hrun. by rewrite emit_emit.
Qed.

(** ** Every command returns, and keeps the store well formed *)

Lemma heap_ok_emit ls w : heap_ok w -> heap_ok (emit ls w).
Proof. done. Qed.

Lemma heap_ok_mark_completed r w : heap_ok w -> heap_ok (mark_completed r w).
Proof.
  unfold mark_completed. destruct (task_objs w !! r); [|done].
  unfold heap_ok, valid_task, valid_user. simpl.
  by rewrite length_insert.
Qed.

Lemma heap_ok_add_existing w u U t :
  heap_ok w -> user_objs w !! u = Some U ->
  heap_ok (mkWorld (task_objs w ++ [t])
             (<[u := User.mk (User.name U)
                             (User.tasks U ++ [length (task_objs w)])]>
                (user_objs w))
             (users w) (stdout w)).
Proof.
  intros [Hus Hts] HU. unfold heap_ok, valid_task, valid_user in *. simpl.
  rewrite length_insert, length_app. simpl. split; [done|].
  apply Forall_insert.
  - eapply Forall_impl; [exact Hts|]. intros U' HU'.
    eapply Forall_impl; [exact HU'|]. simpl. lia.
  - simpl. apply Forall_app. split.
    + rewrite Forall_forall in Hts.
      eapply Forall_impl; [apply Hts; by eapply list_elem_of_lookup_2|].
      simpl. lia.
    + apply Forall_singleton. lia.
Qed.

Lemma heap_ok_add_new w k name t :
  heap_ok w ->
  heap_ok (mkWorld (task_objs w ++ [t])
             (user_objs w ++ [User.mk name [length (task_objs w)]])
             (users w ++ [(k, length (user_objs w))]) (stdout w)).
Proof.
  intros [Hus Hts]. unfold heap_ok, valid_task, valid_user in *. simpl.
  rewrite !length_app. simpl. split.
  - apply Forall_app. split.
    + eapply Forall_impl; [exact Hus|]. simpl. lia.
    + apply Forall_singleton. simpl. lia.
  - apply Forall_app. split.
    + eapply Forall_impl; [exact Hts|]. intros U' HU'.
      eapply Forall_impl; [exact HU'|]. simpl. lia.
    + apply Forall_singleton. simpl. apply Forall_singleton. lia.
Qed.

Lemma call_heap_ok f args w :
  heap_ok w -> exists w', call f args w = Some (tt, w') /\ heap_ok w'.
Proof.
  intros Hok. destruct f; simpl.
  - destruct (dict_get (Args.user args) (users w)) as [u|] eqn:Hk.
    + destruct (heap_ok_user _ _ _ Hok Hk) as (U & HU & _).
      rewrite (add_task_existing _ _ _ _ Hk HU).
      eexists. split; [done|]. by apply heap_ok_emit, heap_ok_add_existing.
    + rewrite (add_task_new _ _ Hk).
      eexists. split; [done|]. by apply heap_ok_emit, heap_ok_add_new.
  - destruct (dict_get (Args.user args) (users w)) as [u|] eqn:Hk.
    + destruct (heap_ok_user _ _ _ Hok Hk) as (U & HU & Hv).
      destruct (complete_task_user _ _ _ _ Hk HU Hv) as ([r|] & _ & Hres).
      * destruct Hres as (t & _ & _ & ->). eexists. split; [done|].
        destruct (Task.completed t);
          by auto using heap_ok_emit, heap_ok_mark_completed.
      * rewrite Hres. eexists. split; [done|]. by apply heap_ok_emit.
    + rewrite (complete_task_no_user _ _ Hk).
      eexists. split; [done|]. by apply heap_ok_emit.
  - destruct (dict_get (Args.user args) (users w)) as [u|] eqn:Hk.
    + destruct (heap_ok_user _ _ _ Hok Hk) as (U & HU & Hv).
      rewrite (list_tasks_user _ _ _ Hk).
      destruct (User_list_tasks_spec _ _ _ HU Hv) as (lines & -> & _).
      eexists. split; [done|]. by apply heap_ok_emit.
    + rewrite (list_tasks_no_user _ _ Hk).
      eexists. split; [done|]. by apply heap_ok_emit.
  - destruct (users w) as [|kv rest] eqn:E.
    + rewrite (list_users_empty _ _ E).
      eexists. split; [done|]. by apply heap_ok_emit.
    + destruct (list_users_spec w args Hok) as (body & -> & _);
        [by rewrite E|].
      eexists. split; [done|]. by apply heap_ok_emit.
Qed.

(** The world each command ends in. *)
Lemma call_cases f args w :
  heap_ok w ->
  exists w', call f args w = Some (tt, w') /\
    match f with
    | f_add_task =>
        match dict_get (Args.user args) (users w) with
        | Some u =>
            exists U, user_objs w !! u = Some U /\
              w' = emit [added_msg (Args.title args) (User.name U)]
                     (mkWorld
                        (task_objs w ++ [Task.mk (Args.title args) false])
                        (<[u := User.mk (User.name U)
                                   (User.tasks U ++ [length (task_objs w)])]>
                           (user_objs w))
                        (users w) (stdout w))
        | None =>
            w' = emit [added_msg (Args.title args) (Args.user args)]
                   (mkWorld
                      (task_objs w ++ [Task.mk (Args.title args) false])
                      (user_objs w
                         ++ [User.mk (Args.user args) [length (task_objs w)]])
                      (users w ++ [(Args.user args, length (user_objs w))])
                      (stdout w))
        end
    | f_complete_task =>
        exists ls, w' = emit ls w \/ exists r, w' = emit ls (mark_completed r w)
    | f_list_tasks | f_list_users => exists ls, w' = emit ls w
    end.
Proof.
  intros Hok. destruct f; simpl.
  - destruct (dict_get (Args.user args) (users w)) as [u|] eqn:Hk.
    + destruct (heap_ok_user _ _ _ Hok Hk) as (U & HU & _).
      rewrite (add_task_existing _ _ _ _ Hk HU). eauto.
    + rewrite (add_task_new _ _ Hk). eauto.
  - destruct (dict_get (Args.user args) (users w)) as [u|] eqn:Hk.
    + destruct (heap_ok_user _ _ _ Hok Hk) as (U & HU & Hv).
      destruct (complete_task_user _ _ _ _ Hk HU Hv) as ([r|] & _ & Hres).
      * destruct Hres as (t & _ & _ & ->). eexists. split; [done|].
        destruct (Task.completed t); eauto.
      * rewrite Hres. eauto.
    + rewrite (complete_task_no_user _ _ Hk). eauto.
  - destruct (dict_get (Args.user args) (users w)) as [u|] eqn:Hk.
    + destruct (heap_ok_user _ _ _ Hok Hk) as (U & HU & Hv).
      rewrite (list_tasks_user _ _ _ Hk).
      destruct (User_list_tasks_spec _ _ _ HU Hv) as (lines & -> & _). eauto.
    + rewrite (list_tasks_no_user _ _ Hk). eauto.
  - destruct (users w) as [|kv rest] eqn:E.
    + rewrite (list_users_empty _ _ E). eauto.
    + destruct (list_users_spec w args Hok) as (body & -> & _);
        [by rewrite E|]. eauto.
Qed.

(** The commands keep every registry entry under the name of its User. *)
Lemma call_names_ok f args w w' :
  heap_ok w -> names_ok w -> call f args w = Some (tt, w') -> names_ok w'.
Proof.
  intros Hok Hnames Hrun.
  destruct (call_cases f args w Hok) as (w2 & Hrun2 & Hcases).
  assert (w2 = w') as -> by congruence.
  assert (Hframe : users w' = users w -> user_objs w' = user_objs w ->
                   names_ok w').
  { intros Hus Huo. unfold names_ok. by rewrite Hus, Huo. }
  destruct f; simpl in Hcases.
  - unfold names_ok in *. rewrite Forall_forall in Hnames.
    destruct (dict_get (Args.user args) (users w)) as [u|] eqn:Hk.
    + destruct Hcases as (U & HU & ->). simpl.
      apply Forall_forall. intros [k u'] Hkv. simpl.
      specialize (Hnames _ Hkv). simpl in Hnames.
      destruct (decide (u' = u)) as [->|Hne].
      * rewrite list_lookup_insert_eq by (by eapply lookup_lt_Some).
        simpl. by rewrite HU in Hnames.
      * by rewrite list_lookup_insert_ne.
    + subst w'. simpl. apply Forall_app. split.
      * apply Forall_forall. intros [k u'] Hkv. simpl.
        specialize (Hnames _ Hkv). simpl in Hnames.
        rewrite lookup_app_l; [done|].
        destruct (user_objs w !! u') eqn:E; [|done].
        by eapply lookup_lt_Some.
      * apply Forall_singleton. simpl. by rewrite list_lookup_middle.
  - destruct Hcases as (ls & [-> | [r ->]]); [by apply Hframe|].
    apply Hframe; unfold mark_completed; by destruct (task_objs w !! r).
  - destruct Hcases as (ls & ->). by apply Hframe.
  - destruct Hcases as (ls & ->). by apply Hframe.
Qed.

(** [run] on a well-formed world: one command after the other. *)
Lemma run_cons f args rest w w' :
  call f args w = Some (tt, w') -> run ((f, args) :: rest) w = run rest w'.
Proof. intros H. simpl. unfold bind. by rewrite H. Qed.

Lemma run_total cmds : forall w,
  heap_ok w -> exists w', run cmds w = Some (tt, w') /\ heap_ok w'.
Proof.
  induction cmds as [|[f args] rest IH]; intros w Hok.
  - by exists w.
  - destruct (call_heap_ok f args w Hok) as (w1 & H1 & Hok1).
    rewrite (run_cons _ _ _ _ _ H1). by apply IH.
Qed.

Lemma run_snoc cmds f args : forall w w1,
  run cmds w = Some (tt, w1) ->
  run (cmds ++ [(f, args)]) w =
  match call f args w1 with Some (_, w') => Some (tt, w') | None => None end.
Proof.
  induction cmds as [|[f0 args0] rest IH]; intros w w1 H.
  - injection H as ->. simpl. unfold bind.
    by destruct (call f args w1) as [[[] ?]|].
  - simpl in *. unfold bind in *.
    destruct (call f0 args0 w) as [[[] w0]|]; [|done]. by apply IH.
Qed.

Lemma mark_completed_titles r w :
  Task.title <$> task_objs (mark_completed r w) = Task.title <$> task_objs w.
Proof.
  unfold mark_completed. destruct (task_objs w !! r) as [t|] eqn:Ht; [|done].
  simpl. rewrite list_fmap_insert. simpl. apply list_insert_id.
  by rewrite list_lookup_fmap, Ht.
Qed.

Lemma call_titles f args w :
  heap_ok w ->
  exists w', call f args w = Some (tt, w') /\ heap_ok w' /\
    Task.title <$> task_objs w' =
    (Task.title <$> task_objs w) ++ added_titles [(f, args)].
Proof.
  intros Hok.
  destruct (call_heap_ok f args w Hok) as (w' & Hrun & Hok').
  exists w'. do 2 (split; [done|]).
  destruct (call_cases f args w Hok) as (w2 & Hrun2 & Hcases).
  assert (w2 = w') as -> by congruence.
  unfold added_titles. destruct f; simpl in *.
  - destruct (dict_get (Args.user args) (users w)).
    + destruct Hcases as (U & _ & ->). simpl. by rewrite fmap_app.
    + rewrite Hcases. simpl. by rewrite fmap_app.
  - rewrite app_nil_r. destruct Hcases as (ls & [-> | [r ->]]); [done|].
    simpl. apply mark_completed_titles.
  - rewrite app_nil_r. by destruct Hcases as (ls & ->).
  - rewrite app_nil_r. by destruct Hcases as (ls & ->).
Qed.

Lemma run_titles cmds : forall w,
  heap_ok w ->
  exists w', run cmds w = Some (tt, w') /\ heap_ok w' /\
    Task.title <$> task_objs w' =
    (Task.title <$> task_objs w) ++ added_titles cmds.
Proof.
  induction cmds as [|[f args] rest IH]; intros w Hok.
  - exists w. do 2 (split; [done|]). unfold added_titles. simpl.
    by rewrite app_nil_r.
  - destruct (call_titles f args w Hok) as (w1 & H1 & Hok1 & Ht1).
    destruct (IH w1 Hok1) as (w' & Hrest & Hok' & Ht').
    exists w'. rewrite (run_cons _ _ _ _ _ H1). do 2 (split; [done|]).
    rewrite Ht', Ht1, <- app_assoc. f_equal.
    unfold added_titles. simpl. by rewrite app_nil_r.
Qed.

(** Tasks keep their title from [w] to [w']. *)
Lemma titles_kept w w' extra :
  Task.title <$> task_objs w' = (Task.title <$> task_objs w) ++ extra ->
  forall r t, task_objs w !! r = Some t ->
              title_at w' r = Some (Task.title t).
Proof.
  intros Heq r t Ht. unfold title_at.
  rewrite <- list_lookup_fmap, Heq, lookup_app_l.
  - by rewrite list_lookup_fmap, Ht.
  - rewrite length_fmap. by eapply lookup_lt_Some.
Qed.

Lemma heap_ok_tasks w u U :
  heap_ok w -> user_objs w !! u = Some U ->
  Forall (valid_task w) (User.tasks U).
Proof.
  intros [_ Hts] HU. rewrite Forall_forall in Hts. apply Hts.
  by eapply list_elem_of_lookup_2.
Qed.

Lemma first_added_snoc l k :
  first_added (l ++ [k]) =
  if decide (k ∈ first_added l) then first_added l else first_added l ++ [k].
Proof. unfold first_added. by rewrite fold_left_app. Qed.

Lemma elem_of_first_added k l : k ∈ first_added l <-> k ∈ l.
Proof.
  induction l as [|k' l IH] using rev_ind; [done|].
  rewrite first_added_snoc, elem_of_app, list_elem_of_singleton.
  destruct (decide (k' ∈ first_added l)) as [Hin|Hout].
  - rewrite IH. split; [tauto|]. intros [?| ->]; [done|]. by apply IH.
  - by rewrite elem_of_app, list_elem_of_singleton, IH.
Qed.

Lemma NoDup_first_added l : NoDup (first_added l).
Proof.
  induction l as [|k l IH] using rev_ind; [constructor|].
  rewrite first_added_snoc. destruct (decide (k ∈ first_added l)); [done|].
  apply NoDup_app. split; [done|]. split; [|apply NoDup_singleton].
  intros x Hx Hk. apply list_elem_of_singleton in Hk. by subst.
Qed.

Lemma count_snoc k l k' :
  count k (l ++ [k']) = count k l + (if decide (k' = k) then 1 else 0).
Proof.
  unfold count. rewrite filter_app, length_app. f_equal.
  rewrite filter_cons. by destruct (decide (k' = k)).
Qed.

Lemma count_0 k l : k ∉ l -> count k l = 0.
Proof.
  unfold count. induction l as [|x l IH]; [done|].
  rewrite not_elem_of_cons. intros [Hne Hl].
  rewrite filter_cons_False by congruence. auto.
Qed.

Lemma NoDup_fmap_eq {A B} (f : A -> B) (l : list A) x y :
  NoDup (f <$> l) -> x ∈ l -> y ∈ l -> f x = f y -> x = y.
Proof.
  induction l as [|a l IH]; simpl; [by intros _ ?%elem_of_nil|].
  rewrite NoDup_cons. intros [Ha Hl] Hx Hy Hf.
  apply elem_of_cons in Hx as [->|Hx]; apply elem_of_cons in Hy as [->|Hy].
  - done.
  - exfalso. apply Ha. rewrite Hf. by apply list_elem_of_fmap_2.
  - exfalso. apply Ha. rewrite <- Hf. by apply list_elem_of_fmap_2.
  - by apply IH.
Qed.

Lemma adders_snoc cmds f args :
  adders (cmds ++ [(f, args)]) =
  adders cmds ++ match f with f_add_task => [Args.user args] | _ => [] end.
Proof. unfold adders. rewrite flat_map_app. simpl. by rewrite app_nil_r. Qed.

Lemma tally_ok_frame cmds f args w w' :
  f <> f_add_task ->
  tally_ok cmds w -> heap_ok w' ->
  users w' = users w -> user_objs w' = user_objs w ->
  tally_ok (cmds ++ [(f, args)]) w'.
Proof.
  intros Hf (_ & Hkeys & Hvals & Hent) Hok' Hus Huo.
  unfold tally_ok. rewrite adders_snoc.
  replace (match f with f_add_task => [Args.user args] | _ => [] end)
    with (@nil string) by (by destruct f).
  rewrite app_nil_r. by rewrite Hus, Huo.
Qed.

Lemma tally_ok_step cmds f args w w' :
  tally_ok cmds w -> call f args w = Some (tt, w') ->
  tally_ok (cmds ++ [(f, args)]) w'.
Proof.
  intros Htally Hrun. pose proof Htally as (Hok & Hkeys & Hvals & Hent).
  destruct (call_heap_ok f args w Hok) as (w1 & Hrun1 & Hok').
  assert (w1 = w') as -> by congruence.
  destruct (call_cases f args w Hok) as (w2 & Hrun2 & Hcases).
  assert (w2 = w') as -> by congruence.
  destruct f; simpl in Hcases.
  - (* add-task *)
    rewrite Forall_forall in Hent.
    assert (Hnd : NoDup (dict_keys (users w))).
    { rewrite Hkeys. apply NoDup_first_added. }
    split; [done|]. rewrite adders_snoc, first_added_snoc. simpl.
    destruct (dict_get (Args.user args) (users w)) as [u|] eqn:Hk.
    + destruct Hcases as (U & HU & ->). simpl.
      pose proof (dict_get_Some_elem _ _ _ Hk) as Hin.
      destruct (decide (Args.user args ∈ first_added (adders cmds)))
        as [_|Hout].
      2:{ exfalso. apply Hout. rewrite <- Hkeys.
          by apply (list_elem_of_fmap_2 fst) in Hin. }
      do 2 (split; [done|]).
      apply Forall_forall. intros [k u'] Hkv. simpl.
      destruct (Hent _ Hkv) as (U' & HU' & Hname & Hlen). simpl in *.
      destruct (decide (u' = u)) as [->|Hne].
      * assert (k = Args.user args) as ->.
        { by pose proof (NoDup_fmap_eq snd _ _ _ Hvals Hkv Hin eq_refl)
            as [= ->]. }
        assert (U' = U) as -> by congruence.
        eexists. split; [apply list_lookup_insert_eq;
                         by eapply lookup_lt_Some|].
        simpl. split; [done|].
        rewrite length_app, count_snoc, Hlen. simpl.
        by rewrite decide_True.
      * assert (k <> Args.user args).
        { intros ->. apply Hne.
          by pose proof (NoDup_fmap_eq fst _ _ _ Hnd Hkv Hin eq_refl)
            as [= ->]. }
        exists U'. rewrite list_lookup_insert_ne by done.
        rewrite count_snoc, decide_False by done.
        by rewrite Nat.add_0_r.
    + subst w'. simpl.
      pose proof (proj1 (dict_get_None _ _) Hk) as Hout.
      rewrite Hkeys in Hout. rewrite decide_False by done.
      destruct Hok as [Hus _].
      split; [|split].
      * unfold dict_keys in *. rewrite fmap_app. simpl. by rewrite Hkeys.
      * unfold dict_values in *. rewrite fmap_app. simpl.
        apply NoDup_app. split; [done|]. split; [|apply NoDup_singleton].
        intros x Hx Hx'. apply list_elem_of_singleton in Hx'. subst x.
        apply list_elem_of_fmap in Hx as ([k u'] & Heq & Hkv).
        simpl in Heq. subst u'.
        rewrite Forall_forall in Hus. specialize (Hus _ Hkv).
        unfold valid_user in Hus. simpl in Hus. lia.
      * apply Forall_app. split.
        -- apply Forall_forall. intros [k u'] Hkv. simpl.
           destruct (Hent _ Hkv) as (U' & HU' & Hname & Hlen). simpl in *.
           exists U'. split; [|split; [done|]].
           ++ rewrite lookup_app_l; [done | by eapply lookup_lt_Some].
           ++ rewrite count_snoc, decide_False; [by rewrite Nat.add_0_r|].
              intros <-. apply Hout. rewrite <- Hkeys.
              by apply (list_elem_of_fmap_2 fst) in Hkv.
        -- apply Forall_singleton. simpl. eexists.
           split; [by apply list_lookup_middle|]. simpl. split; [done|].
           rewrite count_snoc, decide_True by done.
           rewrite count_0; [done|]. by rewrite <- elem_of_first_added.
  - destruct Hcases as (ls & [-> | [r ->]]).
    + by apply (tally_ok_frame _ _ _ w).
    + apply (tally_ok_frame _ _ _ w); [done..| |];
        unfold mark_completed; by destruct (task_objs w !! r).
  - destruct Hcases as (ls & ->). by apply (tally_ok_frame _ _ _ w).
  - destruct Hcases as (ls & ->). by apply (tally_ok_frame _ _ _ w).
Qed.

Lemma run_tally cmds :
  exists w, run cmds empty_world = Some (tt, w) /\ tally_ok cmds w.
Proof.
  induction cmds as [|[f args] cmds IH] using rev_ind.
  - exists empty_world. split; [done|].
    repeat split; try constructor.
  - destruct IH as (w & Hrun & Htally).
    destruct (call_heap_ok f args w (proj1 Htally)) as (w' & Hcall & _).
    exists w'. split.
    + by rewrite (run_snoc _ _ _ _ _ Hrun), Hcall.
    + by eapply tally_ok_step.
Qed.

Lemma demo_world_heap_ok : heap_ok demo_world.
Proof. split; vm_compute; repeat constructor. Qed.

Lemma demo_world_names_ok : names_ok demo_world.
Proof. vm_compute. repeat constructor. Qed.

(** * The claims *)

(** C1. For every registry state and every pair of strings (user, title),
    complete-task behaves exactly as: if the username is not a key of the
    registry it prints "❌ User '<user>' not found." and stops; otherwise, if
    the user has no task with that title, it prints "❌ Task '<title>' not
    found for <user>." and stops; otherwise, if the first task with that title
    is already completed, it prints "ℹ️  Task '<title>' is already completed."
    and changes nothing else; otherwise it sets that task's completed flag to
    true (its title is kept) and prints "✅ Task '<title>' completed." *)
Theorem complete_task_behaviour (w : World) (user title : string) :
  heap_ok w ->
  exists w', complete_task (Args.mk user title) w = Some (tt, w') /\
    match dict_get user (users w) with
    | None =>
        (user ∉ dict_keys (users w)) /\
        w' = emit ["❌ User '" +:+ user +:+ "' not found."] w
    | Some u =>
        exists U res,
          user_objs w !! u = Some U /\
          first_match w title (User.tasks U) res /\
          match res with
          | None =>
              w' = emit ["❌ Task '" +:+ title +:+ "' not found for "
                         +:+ user +:+ "."] w
          | Some r =>
              exists t, task_objs w !! r = Some t /\
                if Task.completed t
                then w' = emit ["ℹ️  Task '" +:+ title
                                +:+ "' is already completed."] w
                else w' = emit ["✅ Task '" +:+ title +:+ "' completed."]
                            (mkWorld
                               (<[r := Task.mk title true]> (task_objs w))
                               (user_objs w) (users w) (stdout w))
          end
    end.
Proof.
  intros Hok.
  destruct (dict_get user (users w)) as [u|] eqn:Hk.
  - destruct (heap_ok_user _ _ _ Hok Hk) as (U & HU & Hv).
    destruct (complete_task_user w (Args.mk user title) u U Hk HU Hv)
      as (res & Hfm & Hres).
    destruct res as [r|].
    + destruct Hres as (t & Ht & Htitle & Hrun). simpl in Htitle.
      eexists. split; [exact Hrun|].
      exists U, (Some r). repeat split; [done..|].
      exists t. split; [done|].
      destruct (Task.completed t); [done|].
      unfold mark_completed. by rewrite Ht, Htitle.
    + eexists. split; [exact Hres|]. by exists U, None.
  - eexists. split; [by apply complete_task_no_user|].
    split; [by apply dict_get_None | done].
Qed.

Lemma complete_task_behaviour_witness :
  heap_ok demo_world /\
  exists w', complete_task (Args.mk "Bob" "Deploy") demo_world = Some (tt, w') /\
             task_objs w' !! 2 = Some (Task.mk "Deploy" true).
Proof.
  split; [exact demo_world_heap_ok|].
  destruct (complete_task_behaviour demo_world "Bob" "Deploy"
              demo_world_heap_ok) as (w' & Hrun & _).
  exists w'. split; [exact Hrun|].
  vm_compute in Hrun. injection Hrun as <-. reflexivity.
Defined.

(** C2. For every registry state and every pair of strings (user, title),
    add-task always succeeds: afterwards the registry holds a User under that
    username (the stored one if the name was a key, a new one at the end of
    the registry otherwise), that user's task list is its previous value
    with one new task of the given title and completed = false appended, and
    "📌 Task '<title>' added to <user>." is printed. *)
Theorem add_task_succeeds (w : World) (user title : string) :
  heap_ok w -> names_ok w ->
  exists w' u old,
    add_task (Args.mk user title) w = Some (tt, w') /\
    dict_get user (users w') = Some u /\
    match dict_get user (users w) with
    | Some u0 =>
        u = u0 /\ users w' = users w /\
        length (user_objs w') = length (user_objs w) /\
        User.tasks <$> user_objs w !! u = Some old
    | None =>
        user_objs w !! u = None /\ users w' = users w ++ [(user, u)] /\
        length (user_objs w') = S (length (user_objs w)) /\
        old = []
    end /\
    user_objs w' !! u = Some (User.mk user (old ++ [length (task_objs w)])) /\
    task_objs w' = task_objs w ++ [Task.mk title false] /\
    stdout w' =
    stdout w ++ ["📌 Task '" +:+ title +:+ "' added to " +:+ user +:+ "."].
Proof.
  intros Hok Hnames.
  destruct (dict_get user (users w)) as [u|] eqn:Hk.
  - destruct (heap_ok_user _ _ _ Hok Hk) as (U & HU & _).
    assert (Hname : User.name U = user).
    { unfold names_ok in Hnames. rewrite Forall_forall in Hnames.
      specialize (Hnames _ (dict_get_Some_elem _ _ _ Hk)). simpl in Hnames.
      rewrite HU in Hnames. by injection Hnames. }
    eexists _, u, (User.tasks U).
    split; [exact (add_task_existing w (Args.mk user title) u U Hk HU)|].
    simpl. rewrite length_insert, HU, Hname.
    repeat split; [done|].
    apply list_lookup_insert_eq. by eapply lookup_lt_Some.
  - eexists _, (length (user_objs w)), [].
    split; [exact (add_task_new w (Args.mk user title) Hk)|].
    simpl. rewrite length_app, Nat.add_1_r.
    repeat split.
    + by apply dict_get_snoc_eq.
    + by apply lookup_ge_None_2.
    + by apply list_lookup_middle.
Qed.

Lemma add_task_succeeds_witness :
  heap_ok demo_world /\ names_ok demo_world /\
  exists w', add_task (Args.mk "Carol" "Plan") demo_world = Some (tt, w') /\
             dict_get "Carol" (users w') = Some 2.
Proof.
  split; [exact demo_world_heap_ok|]. split; [exact demo_world_names_ok|].
  destruct (add_task_succeeds demo_world "Carol" "Plan"
              demo_world_heap_ok demo_world_names_ok)
    as (w' & u & old & Hrun & _).
  exists w'. split; [exact Hrun|].
  vm_compute in Hrun. injection Hrun as <-. reflexivity.
Defined.

(** C3. For every user in the registry, listing that user's tasks prints
    "<name> has no tasks." when the task list is empty, and otherwise the
    header "<name>'s tasks:" (after a line break) followed by one line per
    task, numbered from 1 in the order of the task list, each line showing
    ✅ for a completed task and ⭕ for an open one, then the title. *)
Theorem list_tasks_output (w : World) (user title : string) (u : ref)
    (U : User.t) :
  heap_ok w ->
  dict_get user (users w) = Some u ->
  user_objs w !! u = Some U ->
  exists lines,
    list_tasks (Args.mk user title) w = Some (tt, emit lines w) /\
    match User.tasks U with
    | [] => lines = [User.name U +:+ " has no tasks."]
    | _ :: _ =>
        exists body,
          lines = (newline +:+ User.name U +:+ "'s tasks:") :: body /\
          length body = length (User.tasks U) /\
          forall i r t,
            User.tasks U !! i = Some r -> task_objs w !! r = Some t ->
            body !! i =
            Some ("  " +:+ str_of_int (S i) +:+ ". "
                  +:+ (if Task.completed t then "✅" else "⭕")
                  +:+ " " +:+ Task.title t)
    end.
Proof.
  intros Hok Hk HU.
  destruct (heap_ok_user _ _ _ Hok Hk) as (U' & HU' & Hv).
  assert (U' = U) as -> by congruence.
  rewrite (list_tasks_user w (Args.mk user title) u Hk).
  exact (User_list_tasks_spec w u U HU Hv).
Qed.

Lemma list_tasks_output_witness :
  heap_ok demo_world /\
  dict_get "Alice" (users demo_world) = Some 0 /\
  user_objs demo_world !! 0 = Some (User.mk "Alice" [0; 1]) /\
  exists lines,
    list_tasks (Args.mk "Alice" EmptyString) demo_world = Some (tt, emit lines demo_world)
    /\ lines !! 2 = Some "  2. ✅ Review code".
Proof.
  split; [exact demo_world_heap_ok|]. do 2 (split; [reflexivity|]).
  destruct (list_tasks_output demo_world "Alice" EmptyString 0 (User.mk "Alice" [0; 1])
              demo_world_heap_ok eq_refl eq_refl)
    as (lines & Hrun & body & -> & _ & Hbody).
  eexists. split; [exact Hrun|].
  exact (Hbody 1 1 (Task.mk "Review code" true) eq_refl eq_refl).
Defined.

(** C4. complete-task with a username that is not in the registry leaves the
    whole registry unchanged: no User is created, no user's name or task list
    is modified, no task's fields change.  Only the message is printed. *)
Theorem complete_task_unknown_user (w : World) (user title : string) :
  user ∉ dict_keys (users w) ->
  exists w',
    complete_task (Args.mk user title) w = Some (tt, w') /\
    users w' = users w /\ user_objs w' = user_objs w /\
    task_objs w' = task_objs w /\
    stdout w' = stdout w ++ ["❌ User '" +:+ user +:+ "' not found."].
Proof.
  intros Hk. apply dict_get_None in Hk. eexists.
  split; [exact (complete_task_no_user w (Args.mk user title) Hk)|done].
Qed.

Lemma complete_task_unknown_user_witness :
  ("Carol" ∉ dict_keys (users demo_world)) /\
  exists w', complete_task (Args.mk "Carol" "Deploy") demo_world = Some (tt, w')
             /\ users w' = users demo_world.
Proof.
  assert (H : "Carol" ∉ dict_keys (users demo_world)).
  { by apply (dict_get_None (V := ref)). }
  split; [exact H|].
  destruct (complete_task_unknown_user demo_world "Carol" "Deploy" H)
    as (w' & Hrun & Hus & _).
  by exists w'.
Defined.

(** C5. For every user and every query title, get_task_by_title returns the
    first task of the user's list (which is in add order) whose title equals
    the query, and returns None, without raising and without changing
    anything, when no task matches.  In particular, when two tasks with the
    same title are added to a user who had no task of that title, the one
    added first is returned. *)
Theorem get_task_by_title_first (w : World) (self : ref) (U : User.t)
    (title : string) :
  user_objs w !! self = Some U ->
  Forall (valid_task w) (User.tasks U) ->
  (exists res,
     User_get_task_by_title self title w = Some (res, w) /\
     match res with
     | Some r =>
         exists pre post,
           User.tasks U = pre ++ r :: post /\
           title_at w r = Some title /\
           Forall (fun r' => title_at w r' <> Some title) pre
     | None => Forall (fun r => title_at w r <> Some title) (User.tasks U)
     end) /\
  (Forall (fun r => title_at w r <> Some title) (User.tasks U) ->
   exists t1 t2 w',
     (t1 <- Task_init title; User_add_task self t1;;
      t2 <- Task_init title; User_add_task self t2;;
      res <- User_get_task_by_title self title;
      ret (t1, t2, res)) w = Some ((t1, t2, Some t1), w') /\
     t1 <> t2 /\
     User.tasks <$> user_objs w' !! self = Some (User.tasks U ++ [t1; t2])).
Proof.
  intros HU Hv. split.
  - exact (User_get_task_by_title_spec w self U title HU Hv).
  - intros Hnone.
    set (n := length (task_objs w)).
    set (new := Task.mk title false).
    set (w1 := mkWorld (task_objs w ++ [new]) (user_objs w) (users w)
                       (stdout w)).
    set (U1 := User.mk (User.name U) (User.tasks U ++ [n])).
    set (w2 := emit [added_msg title (User.name U)]
                 (mkWorld (task_objs w1) (<[self := U1]> (user_objs w1))
                          (users w1) (stdout w1))).
    set (w3 := mkWorld (task_objs w2 ++ [new]) (user_objs w2) (users w2)
                       (stdout w2)).
    set (U2 := User.mk (User.name U) (User.tasks U1 ++ [S n])).
    set (w4 := emit [added_msg title (User.name U)]
                 (mkWorld (task_objs w3) (<[self := U2]> (user_objs w3))
                          (users w3) (stdout w3))).
    assert (Hlt : self < length (user_objs w)) by (by eapply lookup_lt_Some).
    assert (H1 : User_add_task self n w1 = Some (tt, w2)).
    { apply (User_add_task_eq w1 self n U new); [done|].
      by apply list_lookup_middle. }
    assert (H2 : User_add_task self (S n) w3 = Some (tt, w4)).
    { apply (User_add_task_eq w3 self (S n) U1 new).
      - simpl. by apply list_lookup_insert_eq.
      - simpl. apply list_lookup_middle. rewrite length_app. simpl.
        fold n. lia. }
    assert (HU4 : user_objs w4 !! self = Some U2).
    { simpl. apply list_lookup_insert_eq. by rewrite length_insert. }
    assert (Hn : task_objs w4 !! n = Some new).
    { simpl. rewrite <- app_assoc. by apply list_lookup_middle. }
    assert (Hold : forall r, valid_task w r ->
                             task_objs w4 !! r = task_objs w !! r).
    { intros r Hr. simpl. rewrite <- app_assoc. by apply lookup_app_l. }
    assert (H3 : get_task_by_title_loop title (User.tasks U2) w4
                 = Some (Some n, w4)).
    { simpl. rewrite <- app_assoc. simpl.
      revert Hv Hnone. generalize (User.tasks U).
      induction l as [|r l IH]; intros Hv Hnone.
      - simpl. rewrite (bind_Some _ _ _ _ _ (task_get_eq _ _ _ Hn)).
        simpl. by rewrite String.eqb_refl.
      - apply Forall_cons in Hv as [Hr Hv].
        apply Forall_cons in Hnone as [Hne Hnone].
        destruct (valid_task_lookup _ _ Hr) as [t Ht].
        assert (Ht4 : task_objs w4 !! r = Some t) by (by rewrite Hold).
        simpl. rewrite (bind_Some _ _ _ _ _ (task_get_eq _ _ _ Ht4)).
        destruct (String.eqb_spec (Task.title t) title) as [He|_].
        + exfalso. apply Hne. unfold title_at. by rewrite Ht, <- He.
        + by apply IH. }
    exists n, (S n), w4. split; [|split].
    + unfold bind at 1. rewrite Task_init_eq. fold n new w1.
      unfold bind at 1. rewrite H1.
      unfold bind at 1. rewrite Task_init_eq.
      replace (length (task_objs w2)) with (S n)
        by (simpl; rewrite length_app; simpl; fold n; lia).
      fold new w3. unfold bind at 1. rewrite H2.
      unfold bind at 1. unfold User_get_task_by_title.
      rewrite (bind_Some _ _ _ _ _ (user_get_eq _ _ _ HU4)).
      by rewrite H3.
    + lia.
    + rewrite HU4. simpl. by rewrite <- app_assoc.
Qed.

Lemma get_task_by_title_first_witness :
  user_objs demo_world !! 0 = Some (User.mk "Alice" [0; 1]) /\
  Forall (valid_task demo_world) [0; 1] /\
  User_get_task_by_title 0 "Review code" demo_world = Some (Some 1, demo_world).
Proof.
  split; [reflexivity|].
  assert (Hv : Forall (valid_task demo_world) [0; 1]).
  { vm_compute. repeat constructor. }
  split; [exact Hv|].
  destruct (get_task_by_title_first demo_world 0 (User.mk "Alice" [0; 1])
              "Review code" eq_refl Hv) as [(res & Hrun & _) _].
  rewrite Hrun. vm_compute in Hrun. by injection Hrun as ->.
Defined.

(** C6. For every task, complete() establishes completed = true, and it is
    idempotent on the data: a second call leaves the task (title and
    completed flag), and every other object, exactly as after the first.
    Each call prints its confirmation. *)
Theorem Task_complete_idempotent (w : World) (self : ref) (t : Task.t) :
  task_objs w !! self = Some t ->
  exists w1 w2,
    Task_complete self w = Some (tt, w1) /\
    Task_complete self w1 = Some (tt, w2) /\
    task_objs w1 !! self = Some (Task.mk (Task.title t) true) /\
    task_objs w2 = task_objs w1 /\
    user_objs w2 = user_objs w1 /\ users w2 = users w1.
Proof.
  intros Ht.
  assert (Hlt : self < length (task_objs w)) by (by eapply lookup_lt_Some).
  eexists _, _. split; [exact (Task_complete_eq w self t Ht)|].
  assert (H1 : task_objs
                 (emit [completed_msg (Task.title t)]
                    (mkWorld (<[self := Task.mk (Task.title t) true]>
                                (task_objs w))
                             (user_objs w) (users w) (stdout w))) !! self
               = Some (Task.mk (Task.title t) true)).
  { simpl. by apply list_lookup_insert_eq. }
  split; [exact (Task_complete_eq _ self _ H1)|].
  split; [exact H1|]. simpl. by rewrite list_insert_insert_eq.
Qed.

Lemma Task_complete_idempotent_witness :
  task_objs demo_world !! 0 = Some (Task.mk "Write unit tests" false) /\
  exists w1, Task_complete 0 demo_world = Some (tt, w1) /\
             task_objs w1 !! 0 = Some (Task.mk "Write unit tests" true).
Proof.
  split; [reflexivity|].
  destruct (Task_complete_idempotent demo_world 0
              (Task.mk "Write unit tests" false) eq_refl)
    as (w1 & w2 & Hrun & _ & Hdone & _).
  by exists w1.
Defined.

(** C7. The registry maps each username to at most one User object, and
    each of the four commands preserves this: a command naming an existing
    username finds the stored User and creates no User object, and no command
    removes or replaces a registry entry.  Only add-task with a new username
    adds an entry, for one new User object. *)
Theorem registry_one_user_per_name (f : Func) (args : Args.t) (w : World) :
  heap_ok w ->
  NoDup (dict_keys (users w)) ->
  exists w', call f args w = Some (tt, w') /\
    NoDup (dict_keys (users w')) /\
    (forall k u, dict_get k (users w) = Some u ->
                 dict_get k (users w') = Some u) /\
    match f, dict_get (Args.user args) (users w) with
    | f_add_task, None =>
        users w' = users w ++ [(Args.user args, length (user_objs w))] /\
        length (user_objs w') = S (length (user_objs w))
    | _, _ =>
        users w' = users w /\ length (user_objs w') = length (user_objs w)
    end.
Proof.
  intros Hok Hnd.
  destruct (call_cases f args w Hok) as (w' & Hrun & Hcases).
  exists w'. split; [done|].
  assert (Hsame : users w' = users w ->
                  NoDup (dict_keys (users w')) /\
                  forall k u, dict_get k (users w) = Some u ->
                              dict_get k (users w') = Some u).
  { intros ->. by split. }
  destruct f; simpl in *.
  - destruct (dict_get (Args.user args) (users w)) as [u|] eqn:Hk.
    + destruct Hcases as (U & HU & ->). simpl.
      rewrite length_insert. by repeat split.
    + rewrite Hcases. simpl. rewrite length_app, Nat.add_1_r.
      repeat split.
      * by apply dict_keys_snoc_NoDup.
      * intros k u Hku. by rewrite dict_get_app, Hku.
  - destruct Hcases as (ls & [-> | [r ->]]).
    + by destruct (dict_get (Args.user args) (users w)); repeat split.
    + unfold mark_completed.
      by destruct (task_objs w !! r),
           (dict_get (Args.user args) (users w)); repeat split.
  - destruct Hcases as (ls & ->).
    by destruct (dict_get (Args.user args) (users w)); repeat split.
  - destruct Hcases as (ls & ->).
    by destruct (dict_get (Args.user args) (users w)); repeat split.
Qed.

Lemma registry_one_user_per_name_witness :
  heap_ok demo_world /\ NoDup (dict_keys (users demo_world)) /\
  exists w', call f_add_task (Args.mk "Alice" "Plan") demo_world = Some (tt, w')
             /\ users w' = users demo_world.
Proof.
  assert (Hnd : NoDup (dict_keys (users demo_world))).
  { apply (bool_decide_unpack _). by vm_compute. }
  split; [exact demo_world_heap_ok|]. split; [exact Hnd|].
  destruct (registry_one_user_per_name f_add_task (Args.mk "Alice" "Plan")
              demo_world demo_world_heap_ok Hnd)
    as (w' & Hrun & _ & _ & Hsame & _).
  by exists w'.
Defined.

(** C8. A task's title never changes after construction: every operation
    (the constructors, complete, both renderings, add_task,
    get_task_by_title, list_tasks, and any sequence of the four commands)
    returns and leaves every existing task with the title it had. *)
Theorem title_never_changes (o : Op) (w : World) :
  heap_ok w -> op_ok w o ->
  exists w', run_op o w = Some w' /\
    forall r t, task_objs w !! r = Some t ->
                title_at w' r = Some (Task.title t).
Proof.
  intros Hok Hop. destruct o; simpl in Hop; unfold run_op, exec.
  - rewrite Task_init_eq. eexists. split; [done|].
    eapply titles_kept. simpl. by rewrite fmap_app.
  - destruct (valid_task_lookup _ _ Hop) as [t Ht].
    rewrite (Task_complete_eq _ _ _ Ht). eexists. split; [done|].
    apply (titles_kept _ _ []). rewrite app_nil_r.
    pose proof (mark_completed_titles self w) as Hm.
    unfold mark_completed in Hm. by rewrite Ht in Hm.
  - destruct (valid_task_lookup _ _ Hop) as [t Ht].
    rewrite (Task_str_eq _ _ _ Ht). eexists. split; [done|].
    apply (titles_kept _ _ []). by rewrite app_nil_r.
  - eexists. split; [done|].
    apply (titles_kept _ _ []). by rewrite app_nil_r.
  - destruct Hop as [Hu Ht].
    destruct (valid_user_lookup _ _ Hu) as [U HU].
    destruct (valid_task_lookup _ _ Ht) as [t Ht'].
    rewrite (User_add_task_eq _ _ _ _ _ HU Ht'). eexists. split; [done|].
    apply (titles_kept _ _ []). by rewrite app_nil_r.
  - destruct (valid_user_lookup _ _ Hop) as [U HU].
    destruct (User_get_task_by_title_spec w self U title HU
                (heap_ok_tasks _ _ _ Hok HU)) as (res & -> & _).
    eexists. split; [done|].
    apply (titles_kept _ _ []). by rewrite app_nil_r.
  - destruct (valid_user_lookup _ _ Hop) as [U HU].
    destruct (User_list_tasks_spec w self U HU (heap_ok_tasks _ _ _ Hok HU))
      as (lines & -> & _).
    eexists. split; [done|].
    apply (titles_kept _ _ []). by rewrite app_nil_r.
  - destruct (valid_user_lookup _ _ Hop) as [U HU].
    unfold User_str. rewrite (bind_Some _ _ _ _ _ (user_get_eq _ _ _ HU)).
    eexists. split; [done|].
    apply (titles_kept _ _ []). by rewrite app_nil_r.
  - destruct (run_titles cmds w Hok) as (w' & -> & _ & Ht).
    eexists. split; [done|]. by eapply titles_kept.
Qed.

Lemma title_never_changes_witness :
  heap_ok demo_world /\ op_ok demo_world (op_Task_complete 2) /\
  exists w', run_op (op_Task_complete 2) demo_world = Some w' /\
             title_at w' 2 = Some "Deploy".
Proof.
  assert (Hop : op_ok demo_world (op_Task_complete 2)).
  { vm_compute. repeat constructor. }
  split; [exact demo_world_heap_ok|]. split; [exact Hop|].
  destruct (title_never_changes (op_Task_complete 2) demo_world
              demo_world_heap_ok Hop) as (w' & Hrun & Hkept).
  exists w'. split; [exact Hrun|].
  exact (Hkept 2 (Task.mk "Deploy" false) eq_refl).
Defined.

(** C9, as the code has it.  Task creation never fails, whatever the title,
    the empty string included: it builds one new task with the given title
    and completed = false and touches nothing else.  So the tasks of a
    registry reached from the empty one carry exactly the titles given to
    the add-task commands, in order, and such a title may be empty. *)
Theorem Task_init_never_fails (title : string) (w : World) :
  (exists r w',
     Task_init title w = Some (r, w') /\
     task_objs w !! r = None /\
     task_objs w' !! r = Some (Task.mk title false) /\
     task_objs w' = task_objs w ++ [Task.mk title false] /\
     user_objs w' = user_objs w /\ users w' = users w /\
     stdout w' = stdout w) /\
  (forall cmds, exists w',
     run cmds empty_world = Some (tt, w') /\
     Task.title <$> task_objs w' = added_titles cmds).
Proof.
  split.
  - eexists _, _. split; [apply Task_init_eq|]. simpl.
    repeat split; [by apply lookup_ge_None_2 | by apply list_lookup_middle].
  - intros cmds.
    assert (Hok : heap_ok empty_world) by (split; constructor).
    destruct (run_titles cmds empty_world Hok) as (w' & Hrun & _ & Ht).
    by exists w'.
Qed.

(** C9 as stated fails: the empty title is accepted, by the constructor and
    by add-task, and Alice then holds a task with the empty title. *)
Lemma empty_title_accepted :
  Task_init EmptyString empty_world
  = Some (0, mkWorld [Task.mk EmptyString false] [] [] []) /\
  run [(f_add_task, Args.mk "Alice" EmptyString)] empty_world
  = Some (tt, mkWorld [Task.mk EmptyString false] [User.mk "Alice" [0]]
                      [("Alice", 0)] ["📌 Task '' added to Alice."]).
Proof. split; reflexivity. Qed.

(** C10. Whenever the registry is non-empty, list-users prints the header
    "All users:" (after a line break) and then one line
    "  • User: <name> (<n> tasks)" per user, <n> being the number of the
    user's tasks, in the order in which the usernames were first added to
    the registry. *)
Theorem list_users_insertion_order (cmds : list (Func * Args.t)) (w : World)
    (args : Args.t) :
  run cmds empty_world = Some (tt, w) ->
  users w <> [] ->
  list_users args w =
  Some (tt, emit ((newline +:+ "All users:")
                    :: ((fun name =>
                           "  • User: " +:+ name +:+ " ("
                           +:+ str_of_int (count name (adders cmds))
                           +:+ " tasks)")
                          <$> first_added (adders cmds)))
              w).
Proof.
  intros Hrun Hne.
  destruct (run_tally cmds) as (w0 & Hrun0 & Htally).
  assert (w0 = w) as -> by congruence.
  destruct Htally as (Hok & Hkeys & _ & Hent).
  destruct (list_users_spec w args Hok Hne) as (body & -> & Hlen & Hbody).
  do 4 f_equal. apply list_eq. intros i.
  rewrite list_lookup_fmap, <- Hkeys. unfold dict_keys.
  rewrite list_lookup_fmap.
  destruct (users w !! i) as [[k u]|] eqn:Hi; simpl.
  - destruct (Forall_lookup_1 _ _ _ _ Hent Hi) as (U & HU & Hname & Hcount).
    simpl in *. rewrite (Hbody i k u U Hi HU).
    unfold user_line. by rewrite Hname, Hcount.
  - apply lookup_ge_None_2. rewrite Hlen. by apply lookup_ge_None_1.
Qed.

Lemma demo_run_eq : run demo_run empty_world = Some (tt, demo_run_world).
Proof. vm_compute. reflexivity. Qed.

Lemma list_users_insertion_order_witness :
  run demo_run empty_world = Some (tt, demo_run_world) /\
  users demo_run_world <> [] /\
  exists lines,
    list_users (Args.mk EmptyString EmptyString) demo_run_world =
    Some (tt, emit ((newline +:+ "All users:") :: lines) demo_run_world) /\
    lines = ["  • User: Bob (2 tasks)"; "  • User: Alice (1 tasks)"].
Proof.
  assert (Hne : users demo_run_world <> []) by discriminate.
  split; [exact demo_run_eq|]. split; [exact Hne|].
  eexists. split.
  - exact (list_users_insertion_order demo_run demo_run_world
             (Args.mk EmptyString EmptyString) demo_run_eq Hne).
  - vm_compute. reflexivity.
Defined.

(** * The scenarios of the specification, run *)

(** Scenario A. *)
Example scenario_A :
  run [(f_add_task, Args.mk "Alice" "Write unit tests")] empty_world =
  Some (tt, mkWorld [Task.mk "Write unit tests" false]
                    [User.mk "Alice" [0]] [("Alice", 0)]
                    ["📌 Task 'Write unit tests' added to Alice."]).
Proof. reflexivity. Qed.

(** Scenario B. *)
Example scenario_B :
  complete_task (Args.mk "X" "Deploy") empty_world =
  Some (tt, emit ["❌ User 'X' not found."] empty_world).
Proof. reflexivity. Qed.

(** Scenario C. *)
Example scenario_C :
  stdout <$> exec (run [(f_add_task, Args.mk "Bob" "Deploy");
                        (f_complete_task, Args.mk "Bob" "Deploy");
                        (f_complete_task, Args.mk "Bob" "Deploy")])
                  empty_world =
  Some ["📌 Task 'Deploy' added to Bob."; "✅ Task 'Deploy' completed.";
        "ℹ️  Task 'Deploy' is already completed."].
Proof. reflexivity. Qed.

(** Scenario D. *)
Example scenario_D :
  list_users (Args.mk EmptyString EmptyString) empty_world =
  Some (tt, emit ["No users found."] empty_world).
Proof. reflexivity. Qed.

(** Scenario E. *)
Example scenario_E :
  list_tasks (Args.mk "Alice" EmptyString) demo_world =
  Some (tt, emit [newline +:+ "Alice's tasks:"; "  1. ⭕ Write unit tests";
                  "  2. ✅ Review code"] demo_world).
Proof. reflexivity. Qed.


(** * Further properties of the code *)

(** ** The listing commands *)

(** X1. list-tasks for a username that is not a key of the registry prints
    the not-found message and does nothing else: no User is created (unlike
    add-task) and no object changes. *)
Theorem list_tasks_unknown_user (w : World) (user title : string) :
  (user ∉ dict_keys (users w)) ->
  list_tasks (Args.mk user title) w =
  Some (tt, emit ["❌ User '" +:+ user +:+ "' not found."] w) /\
  list_tasks (Args.mk user title) w = complete_task (Args.mk user title) w.
Proof.
  intros Hk. apply dict_get_None in Hk.
  rewrite (list_tasks_no_user w (Args.mk user title) Hk).
  by rewrite (complete_task_no_user w (Args.mk user title) Hk).
Qed.

Lemma list_tasks_unknown_user_witness :
  ("Carol" ∉ dict_keys (users demo_world)) /\
  list_tasks (Args.mk "Carol" EmptyString) demo_world =
  Some (tt, emit ["❌ User 'Carol' not found."] demo_world).
Proof.
  assert (H : "Carol" ∉ dict_keys (users demo_world)).
  { by apply (dict_get_None (V := nat)). }
  split; [exact H|].
  exact (proj1 (list_tasks_unknown_user demo_world "Carol" EmptyString H)).
Defined.

(** X2. list-tasks and list-users only read: on every world they return, print
    at least one line, and leave the registry, every User and every Task as
    they were. *)
Theorem listing_is_read_only (f : Func) (args : Args.t) (w : World) :
  heap_ok w ->
  f = f_list_tasks \/ f = f_list_users ->
  exists ls, call f args w = Some (tt, emit ls w) /\ ls <> [].
Proof.
  intros Hok [-> | ->]; simpl.
  - destruct (dict_get (Args.user args) (users w)) as [u|] eqn:Hk.
    + destruct (heap_ok_user _ _ _ Hok Hk) as (U & HU & Hv).
      rewrite (list_tasks_user _ _ _ Hk).
      destruct (User_list_tasks_spec _ _ _ HU Hv) as (lines & -> & Hl).
      exists lines. split; [done|].
      destruct (User.tasks U); [by subst|]. by destruct Hl as (body & -> & _).
    + rewrite (list_tasks_no_user _ _ Hk). by eexists.
  - destruct (users w) as [|kv rest] eqn:E.
    + rewrite (list_users_empty _ _ E). by eexists.
    + destruct (list_users_spec w args Hok) as (body & -> & _);
        [by rewrite E|]. by eexists.
Qed.

Lemma listing_is_read_only_witness :
  heap_ok demo_world /\
  exists ls, call f_list_users (Args.mk EmptyString EmptyString) demo_world
             = Some (tt, emit ls demo_world) /\ ls <> [].
Proof.
  split; [exact demo_world_heap_ok|].
  exact (listing_is_read_only f_list_users (Args.mk EmptyString EmptyString)
           demo_world demo_world_heap_ok (or_intror eq_refl)).
Defined.

(** X3. list-users on any registry: "No users found." alone when the
    registry is empty; otherwise the header and one line per entry, in the
    order of the dictionary.  The line of an entry shows the name and the
    number of tasks of the stored User object; the dictionary key itself is
    not printed. *)
Theorem list_users_lines (w : World) (args : Args.t) :
  heap_ok w ->
  exists lines,
    list_users args w = Some (tt, emit lines w) /\
    match users w with
    | [] => lines = ["No users found."]
    | _ :: _ =>
        exists body,
          lines = (newline +:+ "All users:") :: body /\
          length body = length (users w) /\
          forall i k u U,
            users w !! i = Some (k, u) -> user_objs w !! u = Some U ->
            body !! i =
            Some ("  • User: " +:+ User.name U +:+ " ("
                  +:+ str_of_int (length (User.tasks U)) +:+ " tasks)")
    end.
Proof.
  intros Hok. destruct (users w) as [|kv rest] eqn:E.
  - eexists. split; [by apply list_users_empty | done].
  - destruct (list_users_spec w args Hok) as (body & Hrun & Hlen & Hbody);
      [by rewrite E|].
    eexists. split; [exact Hrun|]. exists body.
    rewrite E in Hlen, Hbody. repeat split; [done|].
    intros i k u U Hi HU. by apply (Hbody i k u U).
Qed.

Lemma list_users_lines_witness :
  heap_ok demo_world /\
  exists lines,
    list_users (Args.mk EmptyString EmptyString) demo_world
    = Some (tt, emit lines demo_world) /\
    lines !! 2 = Some "  • User: Bob (1 tasks)".
Proof.
  split; [exact demo_world_heap_ok|].
  destruct (list_users_lines demo_world (Args.mk EmptyString EmptyString)
              demo_world_heap_ok) as (lines & Hrun & body & -> & _ & Hbody).
  eexists. split; [exact Hrun|].
  exact (Hbody 1 "Bob" 1 (User.mk "Bob" [2]) eq_refl eq_refl).
Defined.



(** ** How the commands compose *)

(** The scan of [get_task_by_title] reads titles only. *)
Lemma get_task_by_title_loop_titles title ts w w1 res :
  Task.title <$> task_objs w1 = Task.title <$> task_objs w ->
  get_task_by_title_loop title ts w = Some (res, w) ->
  get_task_by_title_loop title ts w1 = Some (res, w1).
Proof.
  intros Heq. induction ts as [|task rest IH]; simpl.
  - by intros [= <-].
  - unfold bind, task_get.
    destruct (task_objs w !! task) as [t|] eqn:Ht; [|done].
    assert (Ht1 : exists t1, task_objs w1 !! task = Some t1 /\
                             Task.title t1 = Task.title t).
    { pose proof (list_lookup_fmap Task.title (task_objs w1) task) as H1.
      rewrite Heq, list_lookup_fmap, Ht in H1. simpl in H1.
      destruct (task_objs w1 !! task) as [t1|]; [|done].
      injection H1 as H1. by exists t1. }
    destruct Ht1 as (t1 & -> & ->).
    destruct (String.eqb (Task.title t) title); [by intros [= <-]|].
    exact IH.
Qed.

(** [complete_task], once the user and the result of the scan are known. *)
Lemma complete_task_by_scan w args u U res :
  dict_get (Args.user args) (users w) = Some u ->
  user_objs w !! u = Some U ->
  get_task_by_title_loop (Args.title args) (User.tasks U) w = Some (res, w) ->
  complete_task args w =
  match res with
  | None =>
      Some (tt, emit [task_missing_msg (Args.title args) (Args.user args)] w)
  | Some r =>
      match task_objs w !! r with
      | Some t =>
          Some (tt, if Task.completed t
                    then emit [already_msg (Args.title args)] w
                    else emit [completed_msg (Task.title t)]
                              (mark_completed r w))
      | None => None
      end
  end.
Proof.
  intros Hk HU Hscan.
  assert (Hget : User_get_task_by_title u (Args.title args) w
                 = Some (res, w)).
  { unfold User_get_task_by_title.
    by rewrite (bind_Some _ _ _ _ _ (user_get_eq _ _ _ HU)). }
  unfold complete_task, users_get, bind at 1. rewrite Hk.
  rewrite (bind_Some _ _ _ _ _ Hget). destruct res as [r|]; [|done].
  unfold bind, task_get. destruct (task_objs w !! r) as [t|] eqn:Ht; [|done].
  destruct (Task.completed t); [done|].
  rewrite (Task_complete_eq _ _ _ Ht). unfold mark_completed. by rewrite Ht.
Qed.

Lemma first_match_title w title ts r :
  first_match w title ts (Some r) ->
  exists t, task_objs w !! r = Some t /\ Task.title t = title.
Proof.
  intros (pre & post & _ & Htitle & _). unfold title_at in Htitle.
  destruct (task_objs w !! r) as [t|]; [|done].
  injection Htitle as <-. by exists t.
Qed.

Lemma complete_task_same_titles w w1 args u U res :
  dict_get (Args.user args) (users w) = Some u ->
  user_objs w !! u = Some U ->
  get_task_by_title_loop (Args.title args) (User.tasks U) w = Some (res, w) ->
  users w1 = users w -> user_objs w1 = user_objs w ->
  Task.title <$> task_objs w1 = Task.title <$> task_objs w ->
  complete_task args w1 =
  match res with
  | None =>
      Some (tt, emit [task_missing_msg (Args.title args) (Args.user args)] w1)
  | Some r =>
      match task_objs w1 !! r with
      | Some t =>
          Some (tt, if Task.completed t
                    then emit [already_msg (Args.title args)] w1
                    else emit [completed_msg (Task.title t)]
                              (mark_completed r w1))
      | None => None
      end
  end.
Proof.
  intros Hk HU Hscan Hus Huo Htitles.
  apply (complete_task_by_scan w1 args u U res).
  - by rewrite Hus.
  - by rewrite Huo.
  - by apply (get_task_by_title_loop_titles _ _ w).
Qed.

Lemma mark_completed_titles_at w r t :
  task_objs w !! r = Some t ->
  Task.title <$> task_objs
    (emit [completed_msg (Task.title t)]
       (mkWorld (<[r := Task.mk (Task.title t) true]> (task_objs w))
                (user_objs w) (users w) (stdout w)))
  = Task.title <$> task_objs w.
Proof.
  intros Ht. pose proof (mark_completed_titles r w) as H.
  unfold mark_completed in H. by rewrite Ht in H.
Qed.

(** X5. complete-task issued twice with the same arguments: the second call
    changes no object and repeats the message of the first, except that
    "completed" becomes "already completed".  A task is thus completed at most
    once, and the failures (unknown user, unknown title) are reported again
    unchanged. *)
Theorem complete_task_twice (w : World) (user title : string) :
  heap_ok w ->
  exists w1 m,
    complete_task (Args.mk user title) w = Some (tt, w1) /\
    stdout w1 = stdout w ++ [m] /\
    complete_task (Args.mk user title) w1 =
    Some (tt, emit [if decide (m = "✅ Task '" +:+ title +:+ "' completed.")
                    then "ℹ️  Task '" +:+ title +:+ "' is already completed."
                    else m] w1).
Proof.
  intros Hok.
  destruct (dict_get user (users w)) as [u|] eqn:Hk.
  - destruct (heap_ok_user _ _ _ Hok Hk) as (U & HU & Hv).
    destruct (get_task_by_title_loop_spec w title (User.tasks U) Hv)
      as (res & Hscan & Hfm).
    pose proof (complete_task_by_scan w (Args.mk user title) u U res
                  Hk HU Hscan) as H1.
    pose proof (fun w1 => complete_task_same_titles w w1 (Args.mk user title)
                            u U res Hk HU Hscan) as H2.
    simpl in H1, H2. destruct res as [r|].
    + destruct (first_match_title _ _ _ _ Hfm) as (t & Ht & Htt).
      subst title. rewrite Ht in H1. destruct (Task.completed t) eqn:Hc.
      * exists (emit [already_msg (Task.title t)] w),
               (already_msg (Task.title t)).
        split; [exact H1|]. split; [done|].
        rewrite H2 by done.
        rewrite decide_False by (intros H; simpl in H; discriminate H).
        simpl. by rewrite Ht, Hc.
      * unfold mark_completed in H1. rewrite Ht in H1.
        eexists _, (completed_msg (Task.title t)).
        split; [exact H1|]. split; [done|].
        rewrite H2; [|done..|by apply mark_completed_titles_at].
        rewrite decide_True by done.
        simpl. by rewrite list_lookup_insert_eq by (by eapply lookup_lt_Some).
    + exists (emit [task_missing_msg title user] w),
             (task_missing_msg title user).
      split; [exact H1|]. split; [done|].
      rewrite H2 by done.
      by rewrite decide_False by (intros H; simpl in H; discriminate H).
  - exists (emit [user_missing_msg user] w), (user_missing_msg user).
    split; [by apply (complete_task_no_user w (Args.mk user title))|].
    split; [done|].
    rewrite (complete_task_no_user (emit [user_missing_msg user] w)
               (Args.mk user title) Hk).
    by rewrite decide_False by (intros H; simpl in H; discriminate H).
Qed.

Lemma complete_task_twice_witness :
  heap_ok demo_world /\
  exists w1,
    complete_task (Args.mk "Bob" "Deploy") demo_world = Some (tt, w1) /\
    complete_task (Args.mk "Bob" "Deploy") w1 =
    Some (tt, emit ["ℹ️  Task 'Deploy' is already completed."] w1).
Proof.
  split; [exact demo_world_heap_ok|].
  destruct (complete_task_twice demo_world "Bob" "Deploy" demo_world_heap_ok)
    as (w1 & m & H1 & Hm & H2).
  exists w1. split; [exact H1|]. rewrite H2.
  assert (m = "✅ Task 'Deploy' completed.") as ->.
  { vm_compute in H1. injection H1 as <-. by injection Hm. }
  reflexivity.
Defined.

(** What add-task leaves behind, for the proofs below. *)
Lemma add_task_result w args :
  heap_ok w ->
  exists w1 u old U1,
    add_task args w = Some (tt, w1) /\ heap_ok w1 /\
    dict_get (Args.user args) (users w1) = Some u /\
    user_objs w1 !! u = Some U1 /\
    User.tasks U1 = old ++ [length (task_objs w)] /\
    task_objs w1 = task_objs w ++ [Task.mk (Args.title args) false] /\
    match dict_get (Args.user args) (users w) with
    | Some u0 => u0 = u /\ User.tasks <$> user_objs w !! u = Some old
    | None => old = []
    end.
Proof.
  intros Hok.
  destruct (call_heap_ok f_add_task args w Hok) as (w1 & H1 & Hok1).
  simpl in H1. exists w1.
  destruct (dict_get (Args.user args) (users w)) as [u|] eqn:Hk.
  - destruct (heap_ok_user _ _ _ Hok Hk) as (U & HU & _).
    rewrite (add_task_existing _ _ _ _ Hk HU) in H1. injection H1 as <-.
    exists u, (User.tasks U),
      (User.mk (User.name U) (User.tasks U ++ [length (task_objs w)])).
    split; [by apply add_task_existing|].
    split; [done|]. simpl. rewrite HU.
    split; [done|]. split; [|done].
    apply list_lookup_insert_eq. by eapply lookup_lt_Some.
  - rewrite (add_task_new _ _ Hk) in H1. injection H1 as <-.
    exists (length (user_objs w)), [],
      (User.mk (Args.user args) [length (task_objs w)]).
    split; [by apply add_task_new|].
    split; [done|]. simpl.
    split; [by apply dict_get_snoc_eq|].
    split; [by apply list_lookup_middle | done].
Qed.



(** A command changes an existing task in one way only: complete-task turns
    an open task into a completed one. *)
Lemma call_task_kept f args w w' :
  heap_ok w -> call f args w = Some (tt, w') ->
  forall r t, task_objs w !! r = Some t ->
    task_objs w' !! r = Some t \/
    (f = f_complete_task /\ Task.completed t = false /\
     task_objs w' !! r = Some (Task.mk (Task.title t) true)).
Proof.
  intros Hok Hrun r t Ht.
  assert (Hlt : r < length (task_objs w)) by (by eapply lookup_lt_Some).
  destruct (call_cases f args w Hok) as (w2 & Hrun2 & Hcases).
  assert (w2 = w') as -> by congruence.
  destruct f; simpl in Hcases.
  - left. destruct (dict_get (Args.user args) (users w)).
    + destruct Hcases as (U & _ & ->). simpl. by rewrite lookup_app_l.
    + subst w'. simpl. by rewrite lookup_app_l.
  - destruct Hcases as (ls & [-> | [r0 ->]]); [by left|].
    unfold mark_completed.
    destruct (task_objs w !! r0) as [t0|] eqn:Ht0; [|by left]. simpl.
    destruct (decide (r0 = r)) as [->|Hne].
    + rewrite list_lookup_insert_eq by done.
      assert (t0 = t) as -> by congruence.
      destruct t as [ti [|]]; [by left | by right].
    + left. by rewrite list_lookup_insert_ne.
  - left. by destruct Hcases as (ls & ->).
  - left. by destruct Hcases as (ls & ->).
Qed.

(** X7. Completion is permanent: whatever commands follow, a completed task
    stays exactly as it is.  No command reopens or retitles it. *)
Theorem completed_is_permanent (cmds : list (Func * Args.t)) (w : World) :
  heap_ok w ->
  exists w', run cmds w = Some (tt, w') /\
    forall r t, task_objs w !! r = Some t -> Task.completed t = true ->
                task_objs w' !! r = Some t.
Proof.
  revert w. induction cmds as [|[f args] rest IH]; intros w Hok.
  - by exists w.
  - destruct (call_heap_ok f args w Hok) as (w1 & H1 & Hok1).
    destruct (IH w1 Hok1) as (w' & Hrest & Hkept).
    exists w'. rewrite (run_cons _ _ _ _ _ H1). split; [done|].
    intros r t Ht Hc. apply Hkept; [|done].
    destruct (call_task_kept f args w w1 Hok H1 r t Ht)
      as [H | (_ & Hopen & _)]; [done | congruence].
Qed.

Lemma completed_is_permanent_witness :
  heap_ok demo_world /\
  exists w', run demo_run demo_world = Some (tt, w') /\
             task_objs w' !! 1 = Some (Task.mk "Review code" true).
Proof.
  split; [exact demo_world_heap_ok|].
  destruct (completed_is_permanent demo_run demo_world demo_world_heap_ok)
    as (w' & Hrun & Hkept).
  exists w'. split; [exact Hrun|].
  exact (Hkept 1 (Task.mk "Review code" true) eq_refl eq_refl).
Defined.

(** X8. add-task touches nothing but the named user's task list: every
    existing task keeps its title and flag, every other User object stays as
    it is, and no User, the named one included, changes its name. *)
Theorem add_task_frame (w : World) (user title : string) :
  heap_ok w ->
  exists w',
    add_task (Args.mk user title) w = Some (tt, w') /\
    (forall r t, task_objs w !! r = Some t -> task_objs w' !! r = Some t) /\
    (forall u' U', user_objs w !! u' = Some U' ->
                   dict_get user (users w) <> Some u' ->
                   user_objs w' !! u' = Some U') /\
    (forall u' U', user_objs w !! u' = Some U' ->
                   User.name <$> user_objs w' !! u' = Some (User.name U')).
Proof.
  intros Hok.
  destruct (call_cases f_add_task (Args.mk user title) w Hok)
    as (w' & Hrun & Hcases).
  simpl in *. exists w'. split; [done|].
  destruct (dict_get user (users w)) as [u|] eqn:Hk.
  - destruct Hcases as (U & HU & ->). simpl. split; [|split].
    + intros r t Ht. rewrite lookup_app_l; [done|by eapply lookup_lt_Some].
    + intros u' U' HU' Hne. rewrite list_lookup_insert_ne; [done|congruence].
    + intros u' U' HU'. destruct (decide (u = u')) as [->|Hne].
      * rewrite list_lookup_insert_eq by (by eapply lookup_lt_Some).
        simpl. congruence.
      * rewrite list_lookup_insert_ne by done. by rewrite HU'.
  - subst w'. simpl. split; [|split].
    + intros r t Ht. rewrite lookup_app_l; [done|by eapply lookup_lt_Some].
    + intros u' U' HU' _.
      rewrite lookup_app_l; [done|by eapply lookup_lt_Some].
    + intros u' U' HU'.
      rewrite lookup_app_l; [by rewrite HU'|by eapply lookup_lt_Some].
Qed.

Lemma add_task_frame_witness :
  heap_ok demo_world /\
  exists w', add_task (Args.mk "Alice" "Plan") demo_world = Some (tt, w') /\
             user_objs w' !! 1 = Some (User.mk "Bob" [2]).
Proof.
  split; [exact demo_world_heap_ok|].
  destruct (add_task_frame demo_world "Alice" "Plan" demo_world_heap_ok)
    as (w' & Hrun & _ & Hother & _).
  exists w'. split; [exact Hrun|].
  apply Hother; [reflexivity | discriminate].
Defined.

(** X9. add-task followed by list-tasks for the same user: the listing is
    one line longer than the user had tasks plus the header, and its last
    line is the new task, open, with the next free number. *)
Theorem add_then_list (w : World) (user title : string) :
  heap_ok w ->
  exists w1 lines n,
    add_task (Args.mk user title) w = Some (tt, w1) /\
    list_tasks (Args.mk user title) w1 = Some (tt, emit lines w1) /\
    match dict_get user (users w) with
    | None => n = 0
    | Some u => length <$> (User.tasks <$> user_objs w !! u) = Some n
    end /\
    length lines = S (S n) /\
    lines !! S n = Some ("  " +:+ str_of_int (S n) +:+ ". ⭕ " +:+ title).
Proof.
  intros Hok.
  destruct (add_task_result w (Args.mk user title) Hok)
    as (w1 & u & old & U1 & H1 & Hok1 & Hk1 & HU1 & Hts & Htasks & Hold).
  simpl in *.
  pose proof (heap_ok_tasks _ _ _ Hok1 HU1) as Hv1.
  destruct (User_list_tasks_spec w1 u U1 HU1 Hv1) as (lines & Hrun & Hl).
  exists w1, lines, (length old). split; [done|].
  split; [by rewrite (list_tasks_user w1 (Args.mk user title) u Hk1)|].
  split.
  { destruct (dict_get user (users w)); [|by subst].
    destruct Hold as [-> Hold]. by rewrite Hold. }
  assert (Hlast : User.tasks U1 !! length old = Some (length (task_objs w))).
  { rewrite Hts. by apply list_lookup_middle. }
  assert (Hnew : task_objs w1 !! length (task_objs w)
                 = Some (Task.mk title false)).
  { rewrite Htasks. by apply list_lookup_middle. }
  destruct (User.tasks U1) as [|r0 ts] eqn:E; [by destruct old|].
  destruct Hl as (body & -> & Hlen & Hbody). split.
  - simpl. rewrite Hlen, Hts, length_app. simpl. lia.
  - simpl. by rewrite (Hbody _ _ _ Hlast Hnew).
Qed.

Lemma add_then_list_witness :
  heap_ok demo_world /\
  exists w1 lines,
    add_task (Args.mk "Alice" "Plan") demo_world = Some (tt, w1) /\
    list_tasks (Args.mk "Alice" "Plan") w1 = Some (tt, emit lines w1) /\
    lines !! 3 = Some "  3. ⭕ Plan".
Proof.
  split; [exact demo_world_heap_ok|].
  destruct (add_then_list demo_world "Alice" "Plan" demo_world_heap_ok)
    as (w1 & lines & n & H1 & H2 & Hn & _ & Hlast).
  exists w1, lines. do 2 (split; [done|]).
  vm_compute in Hn. injection Hn as <-. exact Hlast.
Defined.

(** ** models.py on its own *)



(** X11. Lookup after insertion: once a task was added to a user with
    User.add_task, get_task_by_title with that task's title finds a task of
    that title, and it finds the added task itself when the user had no
    task of that title before. *)
Theorem User_add_then_get (w : World) (self task : ref) (U : User.t)
    (t : Task.t) :
  user_objs w !! self = Some U ->
  task_objs w !! task = Some t ->
  Forall (valid_task w) (User.tasks U) ->
  exists w1 r,
    User_add_task self task w = Some (tt, w1) /\
    User_get_task_by_title self (Task.title t) w1 = Some (Some r, w1) /\
    title_at w1 r = Some (Task.title t) /\
    (Forall (fun r' => title_at w r' <> Some (Task.title t)) (User.tasks U) ->
     r = task).
Proof.
  intros HU Ht Hv.
  pose proof (User_add_task_eq w self task U t HU Ht) as H1.
  eexists. 
  set (w1 := emit _ _) in H1.
  assert (HU1 : user_objs w1 !! self
                = Some (User.mk (User.name U) (User.tasks U ++ [task]))).
  { simpl. apply list_lookup_insert_eq. by eapply lookup_lt_Some. }
  assert (Hv1 : Forall (valid_task w1) (User.tasks U ++ [task])).
  { apply Forall_app. split; [done|]. apply Forall_singleton.
    unfold valid_task. simpl. by eapply lookup_lt_Some. }
  destruct (User_get_task_by_title_spec w1 self _ (Task.title t) HU1 Hv1)
    as (res & Hget & Hfm).
  simpl in Hfm. destruct res as [r|].
  - exists r. split; [exact H1|]. split; [exact Hget|].
    destruct Hfm as (pre & post & Heq & Htitle & Hpre).
    split; [done|]. intros Hnone.
    assert (Hin : r ∈ User.tasks U ++ [task]).
    { rewrite Heq. apply elem_of_app. right. apply list_elem_of_here. }
    apply elem_of_app in Hin as [Hin|Hin].
    + rewrite Forall_forall in Hnone. by destruct (Hnone _ Hin).
    + by apply list_elem_of_singleton in Hin.
  - exfalso. unfold first_match in Hfm. simpl in Hfm.
    rewrite Forall_app, Forall_singleton in Hfm.
    apply (proj2 Hfm). unfold title_at. simpl. by rewrite Ht.
Qed.

Lemma User_add_then_get_witness :
  user_objs demo_world !! 1 = Some (User.mk "Bob" [2]) /\
  task_objs demo_world !! 0 = Some (Task.mk "Write unit tests" false) /\
  Forall (valid_task demo_world) [2] /\
  exists w1,
    User_add_task 1 0 demo_world = Some (tt, w1) /\
    User_get_task_by_title 1 "Write unit tests" w1 = Some (Some 0, w1).
Proof.
  assert (Hv : Forall (valid_task demo_world) [2]).
  { vm_compute. repeat constructor. }
  do 2 (split; [reflexivity|]). split; [exact Hv|].
  destruct (User_add_then_get demo_world 1 0 (User.mk "Bob" [2])
              (Task.mk "Write unit tests" false) eq_refl eq_refl Hv)
    as (w1 & r & H1 & H2 & _ & Hsame).
  exists w1. split; [exact H1|].
  assert (r = 0) as ->; [|exact H2].
  apply Hsame. repeat constructor. by vm_compute.
Defined.

(** ** Ownership *)

Lemma concat_insert_snoc (ll : list (list nat)) i x n :
  ll !! i = Some x -> concat (<[i := x ++ [n]]> ll) ≡ₚ concat ll ++ [n].
Proof.
  revert i. induction ll as [|a ll IH]; intros [|i] Hi; simpl in *; try done.
  - injection Hi as ->. rewrite <- !app_assoc. apply Permutation_app_head.
    apply Permutation_app_comm.
  - rewrite (IH i Hi). by rewrite app_assoc.
Qed.

Lemma elem_of_concat_lookup (ll : list (list nat)) k y l :
  ll !! k = Some l -> y ∈ l -> y ∈ concat ll.
Proof.
  revert k. induction ll as [|a ll IH]; intros [|k] Hk Hy; simpl in *;
    try done; apply elem_of_app.
  - injection Hk as ->. by left.
  - right. by apply (IH k).
Qed.

Lemma concat_NoDup_disjoint (ll : list (list nat)) i j a b x :
  NoDup (concat ll) -> ll !! i = Some a -> ll !! j = Some b -> i <> j ->
  x ∈ a -> x ∈ b -> False.
Proof.
  revert i j. induction ll as [|c ll IH]; intros i j Hnd Hi Hj Hne Ha Hb;
    [done|].
  simpl in Hnd. apply NoDup_app in Hnd as (_ & Hdis & Hnd).
  pose proof (elem_of_concat_lookup ll) as Hin.
  destruct i as [|i], j as [|j]; simpl in *; try done.
  - injection Hi as ->. by apply (Hdis x Ha), (Hin j x b).
  - injection Hj as ->. by apply (Hdis x Hb), (Hin i x a).
  - apply (IH i j); [done..|congruence|done|done].
Qed.

Lemma ownership_ok_step f args w w' :
  heap_ok w -> ownership_ok w -> call f args w = Some (tt, w') ->
  ownership_ok w'.
Proof.
  intros Hok [Hvals Hown] Hrun.
  destruct (call_cases f args w Hok) as (w2 & Hrun2 & Hcases).
  assert (w2 = w') as -> by congruence.
  assert (Hframe : users w' = users w -> user_objs w' = user_objs w ->
                   length (task_objs w') = length (task_objs w) ->
                   ownership_ok w').
  { intros Hus Huo Hlen. unfold ownership_ok, owned_tasks.
    by rewrite Hus, Huo, Hlen. }
  destruct f; simpl in Hcases.
  - unfold ownership_ok, owned_tasks in *.
    destruct (dict_get (Args.user args) (users w)) as [u|] eqn:Hk.
    + destruct Hcases as (U & HU & ->). simpl.
      rewrite length_insert, length_app, Nat.add_1_r, seq_S. simpl.
      split; [done|].
      rewrite list_fmap_insert. simpl.
      rewrite concat_insert_snoc by (by rewrite list_lookup_fmap, HU).
      by rewrite Hown.
    + subst w'. simpl. rewrite !length_app, !Nat.add_1_r, !seq_S. simpl.
      split.
      * unfold dict_values in *. rewrite fmap_app. simpl. by rewrite Hvals.
      * rewrite fmap_app, concat_app. simpl. by rewrite Hown.
  - destruct Hcases as (ls & [-> | [r ->]]); [by apply Hframe|].
    apply Hframe; unfold mark_completed;
      destruct (task_objs w !! r); simpl; try done.
    by rewrite length_insert.
  - destruct Hcases as (ls & ->). by apply Hframe.
  - destruct Hcases as (ls & ->). by apply Hframe.
Qed.

Lemma run_ownership cmds :
  exists w, run cmds empty_world = Some (tt, w) /\ heap_ok w /\
            ownership_ok w.
Proof.
  induction cmds as [|[f args] cmds IH] using rev_ind.
  - exists empty_world. split; [done|]. split; [by split; constructor|].
    by split.
  - destruct IH as (w & Hrun & Hok & Hown).
    destruct (call_heap_ok f args w Hok) as (w' & Hcall & Hok').
    exists w'. split; [by rewrite (run_snoc _ _ _ _ _ Hrun), Hcall|].
    split; [done|]. exact (ownership_ok_step f args w w' Hok Hown Hcall).
Qed.

(** X12. Ownership, in every registry reached from the empty one: the
    registry names each User object exactly once (the objects in order of
    creation, no two names for one object), and each Task object is held
    exactly once, by one user: no task is shared between two users or listed
    twice. *)
Theorem tasks_exclusively_owned (cmds : list (Func * Args.t)) (w : World) :
  run cmds empty_world = Some (tt, w) ->
  dict_values (users w) = seq 0 (length (user_objs w)) /\
  NoDup (dict_keys (users w)) /\
  concat (User.tasks <$> user_objs w) ≡ₚ seq 0 (length (task_objs w)).
Proof.
  intros Hrun.
  destruct (run_ownership cmds) as (w0 & Hrun0 & _ & Hvals & Hown).
  assert (w0 = w) as -> by congruence.
  destruct (run_tally cmds) as (w0 & Hrun1 & _ & Hkeys & _).
  assert (w0 = w) as -> by congruence.
  split; [done|]. split; [|done].
  rewrite Hkeys. apply NoDup_first_added.
Qed.

Lemma tasks_exclusively_owned_witness :
  run demo_run empty_world = Some (tt, demo_run_world) /\
  concat (User.tasks <$> user_objs demo_run_world) ≡ₚ [0; 1; 2].
Proof.
  split; [exact demo_run_eq|].
  exact (proj2 (proj2 (tasks_exclusively_owned demo_run demo_run_world
                         demo_run_eq))).
Defined.

(** X13. In a registry reached from the empty one, complete-task for one
    user never touches another user: the other user's object and each of
    its tasks are as before, so that user's listing is unchanged. *)
Theorem complete_task_isolated (cmds : list (Func * Args.t)) (w : World)
    (user title other : string) (u : ref) (U : User.t) :
  run cmds empty_world = Some (tt, w) ->
  other <> user ->
  dict_get other (users w) = Some u ->
  user_objs w !! u = Some U ->
  exists w',
    complete_task (Args.mk user title) w = Some (tt, w') /\
    user_objs w' !! u = Some U /\
    Forall (fun r => task_objs w' !! r = task_objs w !! r) (User.tasks U).
Proof.
  intros Hrun Hne Hk HU.
  destruct (run_ownership cmds) as (w0 & Hrun0 & Hok & Hvals & Hown).
  assert (w0 = w) as -> by congruence.
  assert (Hsame : Forall (fun r => task_objs w !! r = task_objs w !! r)
                         (User.tasks U)).
  { by apply Forall_forall. }
  destruct (dict_get user (users w)) as [uA|] eqn:HkA.
  - destruct (heap_ok_user _ _ _ Hok HkA) as (UA & HUA & HvA).
    destruct (complete_task_user w (Args.mk user title) uA UA HkA HUA HvA)
      as ([r|] & Hfm & Hres).
    + destruct Hres as (t & Ht & _ & ->).
      destruct (Task.completed t); eexists; (split; [done|]); [done|].
      unfold mark_completed. rewrite Ht. simpl. split; [done|].
      apply Forall_forall. intros r' Hr'.
      apply list_lookup_insert_ne. intros <-.
      destruct Hfm as (pre & post & Heq & _).
      assert (HrA : r ∈ User.tasks UA).
      { rewrite Heq. apply elem_of_app. right. apply list_elem_of_here. }
      assert (HuA : uA <> u).
      { intros ->. apply Hne.
        assert (Hnd : NoDup (dict_values (users w))).
        { rewrite Hvals. apply NoDup_seq. }
        by pose proof (NoDup_fmap_eq snd _ _ _ Hnd
                         (dict_get_Some_elem _ _ _ Hk)
                         (dict_get_Some_elem _ _ _ HkA) eq_refl) as [= ->]. }
      apply (concat_NoDup_disjoint (User.tasks <$> user_objs w) uA u
               (User.tasks UA) (User.tasks U) r); try done.
      * unfold owned_tasks in Hown. rewrite Hown. apply NoDup_seq.
      * by rewrite list_lookup_fmap, HUA.
      * by rewrite list_lookup_fmap, HU.
    + rewrite Hres. by eexists.
  - rewrite (complete_task_no_user w (Args.mk user title) HkA). by eexists.
Qed.

Lemma complete_task_isolated_witness :
  run demo_run empty_world = Some (tt, demo_run_world) /\
  exists w',
    complete_task (Args.mk "Bob" "Monitor") demo_run_world = Some (tt, w') /\
    user_objs w' !! 1 = Some (User.mk "Alice" [1]).
Proof.
  split; [exact demo_run_eq|].
  destruct (complete_task_isolated demo_run demo_run_world "Bob" "Monitor"
              "Alice" 1 (User.mk "Alice" [1]) demo_run_eq
              ltac:(discriminate) eq_refl eq_refl) as (w' & H1 & H2 & _).
  by exists w'.
Defined.
